(** * Clarifia backend: the [POST /analyze] route of [server.js]

    A shallow embedding of the route (the [requireAppKey] middleware followed by
    the asynchronous handler) and the properties of its responses.

    - JavaScript strings are sequences of UTF-16 code units ([jsstring]);
      [length] is JavaScript's [.length].
    - JSON values are the inductive [JsVal]; an object is the list of its own
      properties in insertion order.
    - An exception is a value of [Exc]; [await fetch(...)] is the one
      interaction of the handler, a node of [Async].
    - What the JavaScript engine supplies ([JSON.parse], the wording of its
      [TypeError]s) is the interface [Engine]. *)

From Stdlib Require Import String Ascii.
From Stdlib Require Import List ZArith NArith Lia Bool.
Import ListNotations.
Local Open Scope Z_scope.
Set Warnings "-register-all".

(** ** Strings *)

(** A JavaScript string: its UTF-16 code units. *)
Definition jsstring : Type := list N.

(** The code units of UTF-8 encoded text: one, two and three byte sequences
    give one unit, a four byte sequence a surrogate pair. *)
Fixpoint utf16_of_utf8 (bs : list N) : jsstring :=
  match bs with
  | [] => []
  | b0 :: r0 =>
    if (b0 <? 0x80)%N then b0 :: utf16_of_utf8 r0
    else if (b0 <? 0xE0)%N then
      match r0 with
      | b1 :: r1 =>
        (N.land b0 0x1F * 64 + N.land b1 0x3F)%N :: utf16_of_utf8 r1
      | [] => [0xFFFD%N]
      end
    else if (b0 <? 0xF0)%N then
      match r0 with
      | b1 :: b2 :: r2 =>
        (N.land b0 0x0F * 4096 + N.land b1 0x3F * 64 + N.land b2 0x3F)%N
          :: utf16_of_utf8 r2
      | _ => [0xFFFD%N]
      end
    else
      match r0 with
      | b1 :: b2 :: b3 :: r3 =>
        let cp := (N.land b0 0x07 * 262144 + N.land b1 0x3F * 4096
                   + N.land b2 0x3F * 64 + N.land b3 0x3F)%N in
        let v := (cp - 0x10000)%N in
        (0xD800 + N.shiftr v 10)%N :: (0xDC00 + N.land v 0x3FF)%N
          :: utf16_of_utf8 r3
      | _ => [0xFFFD%N]
      end
  end.

(** A string literal of the source file (which is UTF-8) as a JavaScript
    string. *)
Definition js (s : string) : jsstring :=
  utf16_of_utf8 (map N_of_ascii (list_ascii_of_string s)).

(** The text [s] between double quotes. *)
Definition quoted (s : string) : jsstring := [34%N] ++ js s ++ [34%N].

Fixpoint str_eqb (a b : jsstring) : bool :=
  match a, b with
  | [], [] => true
  | x :: a', y :: b' => (x =? y)%N && str_eqb a' b'
  | _, _ => false
  end.

(** The code units [String.prototype.trim] strips: ECMAScript's WhiteSpace
    (TAB, VT, FF, ZWNBSP and the space separators) and LineTerminator
    (LF, CR, LS, PS). *)
Definition is_white_space (c : N) : bool :=
  ((c =? 0x0009) || (c =? 0x000B) || (c =? 0x000C) || (c =? 0xFEFF)
   || (c =? 0x0020) || (c =? 0x00A0) || (c =? 0x1680)
   || ((0x2000 <=? c) && (c <=? 0x200A))
   || (c =? 0x202F) || (c =? 0x205F) || (c =? 0x3000)
   || (c =? 0x000A) || (c =? 0x000D) || (c =? 0x2028) || (c =? 0x2029))%N.

Fixpoint trim_start (s : jsstring) : jsstring :=
  match s with
  | [] => []
  | c :: r => if is_white_space c then trim_start r else s
  end.

Fixpoint trim_end (s : jsstring) : jsstring :=
  match s with
  | [] => []
  | c :: r =>
    match trim_end r with
    | [] => if is_white_space c then [] else [c]
    | r' => c :: r'
    end
  end.

(** [s.trim()] *)
Definition trim (s : jsstring) : jsstring := trim_end (trim_start s).

(** [s.slice(0, n)] for a string and [a.slice(0, n)] for an array, [n >= 0]. *)
Definition slice0 {A : Type} (n : nat) (l : list A) : list A := firstn n l.

(** ** Values *)

(** A number, by the two observations the route can make of one: whether it is
    truthy (neither a zero nor NaN) and its [ToString]. *)
Record JsNumber : Type := { num_truthy : bool; num_repr : jsstring }.

Inductive JsVal : Type :=
| JUndefined
| JNull
| JBool (b : bool)
| JNum (n : JsNumber)
| JStr (s : jsstring)
| JArr (elems : list JsVal)
| JObj (props : list (jsstring * JsVal)).

(** An [Error] object, by its [name] and [message]. *)
Record JsError : Type := { err_name : jsstring; err_message : jsstring }.

(** [String(e)] for an [Error]: [Error.prototype.toString]. *)
Definition String_of_error (e : JsError) : jsstring :=
  match err_name e, err_message e with
  | [], m => m
  | n, [] => n
  | n, m => n ++ js ": " ++ m
  end.

Definition TypeError (msg : jsstring) : JsError :=
  {| err_name := js "TypeError"; err_message := msg |}.

(** The outcome of evaluating an expression: a value, or a thrown error. *)
Inductive Exc (A : Type) : Type :=
| Ok (a : A)
| Throw (e : JsError).
Arguments Ok {A} a.
Arguments Throw {A} e.

Definition bindE {A B : Type} (m : Exc A) (f : A -> Exc B) : Exc B :=
  match m with
  | Ok a => f a
  | Throw e => Throw e
  end.

Declare Scope exc_scope.
Delimit Scope exc_scope with exc.
Notation "x <- m ;; k" := (bindE m (fun x => k))
  (at level 61, m at next level, right associativity) : exc_scope.

(** Truthiness. *)
Definition truthy (v : JsVal) : bool :=
  match v with
  | JUndefined | JNull => false
  | JBool b => b
  | JNum n => num_truthy n
  | JStr s => negb (str_eqb s [])
  | JArr _ | JObj _ => true
  end.

(** [a || b] for a right operand that is a literal. *)
Definition or_else (a b : JsVal) : JsVal := if truthy a then a else b.

(** [v === s] for a string literal [s]. *)
Definition strict_eq_str (v : JsVal) (s : jsstring) : bool :=
  match v with
  | JStr t => str_eqb t s
  | _ => false
  end.

(** The own property [k] of an object, [undefined] when it has none. *)
Fixpoint lookup (k : jsstring) (ps : list (jsstring * JsVal)) : JsVal :=
  match ps with
  | [] => JUndefined
  | (k', v) :: r => if str_eqb k k' then v else lookup k r
  end.

Fixpoint has_own (k : jsstring) (ps : list (jsstring * JsVal)) : bool :=
  match ps with
  | [] => false
  | (k', _) :: r => str_eqb k k' || has_own k r
  end.

(** A value of the environment or of a header: a string, or [undefined]. *)
Definition of_optional (o : option jsstring) : JsVal :=
  match o with
  | Some s => JStr s
  | None => JUndefined
  end.

(** [a !== b] for two values that are each a string or [undefined]. *)
Definition strict_neq_optional (a b : option jsstring) : bool :=
  match a, b with
  | None, None => false
  | Some s, Some t => negb (str_eqb s t)
  | _, _ => true
  end.

(** ** Requests, responses and the upstream call *)

(** The configuration read once from the environment ([process.env]): a
    variable is a string, or [undefined] when it is not set. *)
Record Config : Type := {
  APP_KEY : option jsstring;
  OPENAI_API_KEY : option jsstring
}.

(** An inbound request as the route sees it, after the body parser:
    [req.header("X-APP-KEY")] and [req.body]. *)
Record Request : Type := {
  x_app_key : option jsstring;
  req_body : JsVal
}.

(** What [res.status(c).json(b)] sends. *)
Record Response : Type := { status : Z; body : JsVal }.

Definition res_status_json (c : Z) (b : JsVal) : Response :=
  {| status := c; body := b |}.

(** [res.json(b)]: the status is the default, 200. *)
Definition res_json (b : JsVal) : Response := res_status_json 200 b.

(** The object [payload]; the request body is its [JSON.stringify]. *)
Record Payload : Type := {
  model : jsstring;
  payload_instructions : jsstring;
  input : jsstring;
  max_output_tokens : Z
}.

(** The arguments of [fetch]. *)
Record FetchRequest : Type := {
  url : jsstring;
  method : jsstring;
  authorization : jsstring;
  content_type : jsstring;
  fetch_body : Payload
}.

(** The upstream's HTTP response [r]: its status, and what [r.text()] and
    [r.json()] resolve to (a read can fail, and so can the parse). *)
Record UpstreamResponse : Type := {
  up_status : Z;
  up_text : Exc jsstring;
  up_json : Exc JsVal
}.

(** [r.ok]: the status is in the range 200-299. *)
Definition r_ok (r : UpstreamResponse) : bool :=
  (200 <=? up_status r) && (up_status r <=? 299).

(** An asynchronous computation whose only interaction is [await fetch]. *)
Inductive Async (A : Type) : Type :=
| Done (a : A)
| AwaitFetch (rq : FetchRequest) (k : Exc UpstreamResponse -> Async A).
Arguments Done {A} a.
Arguments AwaitFetch {A} rq k.

Fixpoint bindA {A B : Type} (m : Async A) (f : A -> Async B) : Async B :=
  match m with
  | Done a => f a
  | AwaitFetch rq k => AwaitFetch rq (fun r => bindA (k r) f)
  end.

(** A computation that awaits and may throw: the body of an [async]
    function. *)
Definition Task (A : Type) : Type := Async (Exc A).

Definition retT {A : Type} (a : A) : Task A := Done (Ok a).

Definition liftT {A : Type} (m : Exc A) : Task A := Done m.

Definition bindT {A B : Type} (m : Task A) (f : A -> Task B) : Task B :=
  bindA m (fun r => match r with
                    | Ok a => f a
                    | Throw e => Done (Throw e)
                    end).

(** [await fetch(...)]: the promise resolves to a response or rejects. *)
Definition fetch (rq : FetchRequest) : Task UpstreamResponse :=
  AwaitFetch rq (fun r => Done r).

(** [try { body } catch (e) { return handler(e); }] *)
Definition try_catch {A : Type} (body : Task A) (handler : JsError -> A) : Async A :=
  bindA body (fun r => match r with
                       | Ok a => Done a
                       | Throw e => Done (handler e)
                       end).

Declare Scope task_scope.
Delimit Scope task_scope with task.
Notation "x <- m ;; k" := (bindT m (fun x => k))
  (at level 61, m at next level, right associativity) : task_scope.

(** Running a computation against a network [net], which answers each
    [fetch]: the result and the requests sent, in order. *)
Fixpoint run {A : Type} (net : FetchRequest -> Exc UpstreamResponse)
  (m : Async A) : A * list FetchRequest :=
  match m with
  | Done a => (a, [])
  | AwaitFetch rq k =>
    let (a, sent) := run net (k (net rq)) in (a, rq :: sent)
  end.

(** ** The upstream response as the specification describes it

    A direct text field, or a list of output items, each with content blocks
    tagged with a kind and carrying an optional text. *)

Record Block : Type := { block_type : jsstring; block_text : option jsstring }.

Record OutputItem : Type := { item_content : option (list Block) }.

Record UpstreamData : Type := {
  direct_text : option jsstring;
  output_list : option (list OutputItem)
}.

(** An optional string property: absent (or [null]), or a string. *)
Definition view_optional_string (v : JsVal) : option (option jsstring) :=
  match v with
  | JUndefined | JNull => Some None
  | JStr s => Some (Some s)
  | _ => None
  end.

Fixpoint view_all {A : Type} (f : JsVal -> option A) (xs : list JsVal)
  : option (list A) :=
  match xs with
  | [] => Some []
  | x :: r =>
    match f x, view_all f r with
    | Some a, Some l => Some (a :: l)
    | _, _ => None
    end
  end.

Definition view_block (v : JsVal) : option Block :=
  match v with
  | JObj ps =>
    match lookup (js "type") ps, view_optional_string (lookup (js "text") ps) with
    | JStr t, Some tx => Some {| block_type := t; block_text := tx |}
    | _, _ => None
    end
  | _ => None
  end.

Definition view_item (v : JsVal) : option OutputItem :=
  match v with
  | JObj ps =>
    match lookup (js "content") ps with
    | JUndefined | JNull => Some {| item_content := None |}
    | JArr bs =>
      option_map (fun l => {| item_content := Some l |}) (view_all view_block bs)
    | _ => None
    end
  | _ => None
  end.

(** The JSON value [v] read as an upstream response; properties the
    description does not name are ignored. *)
Definition view_data (v : JsVal) : option UpstreamData :=
  match v with
  | JObj ps =>
    match view_optional_string (lookup (js "output_text") ps),
          lookup (js "output") ps with
    | Some dt, (JUndefined | JNull) =>
      Some {| direct_text := dt; output_list := None |}
    | Some dt, JArr items =>
      option_map (fun l => {| direct_text := dt; output_list := Some l |})
                 (view_all view_item items)
    | _, _ => None
    end
  | _ => None
  end.

(** A block whose kind marks it as textual. *)
Definition textual (b : Block) : bool :=
  str_eqb (block_type b) (js "output_text") || str_eqb (block_type b) (js "text").

Definition blocks_of (i : OutputItem) : list Block :=
  match item_content i with
  | Some bs => bs
  | None => []
  end.

Definition text_of (b : Block) : jsstring :=
  match block_text b with
  | Some s => s
  | None => []
  end.

(** Joined with newline separators. *)
Fixpoint join_lines (ls : list jsstring) : jsstring :=
  match ls with
  | [] => []
  | l :: r =>
    match r with
    | [] => l
    | _ => l ++ [10%N] ++ join_lines r
    end
  end.

(** All content blocks across all items, in order; the textual ones; their
    texts; joined. *)
Definition joined_text (items : list OutputItem) : jsstring :=
  join_lines (map text_of (filter textual (flat_map blocks_of items))).

(** The raw text in the specification's words: the direct text when the
    response provides one, otherwise the joined text of the output list,
    otherwise empty. *)
Definition raw_text_as_specified (u : UpstreamData) : jsstring :=
  match direct_text u with
  | Some s => s
  | None =>
    match output_list u with
    | Some items => joined_text items
    | None => []
    end
  end.

(** The same, with an empty direct text counted as none. *)
Definition raw_text_nonempty_first (u : UpstreamData) : jsstring :=
  match direct_text u with
  | Some (c :: s) => c :: s
  | _ =>
    match output_list u with
    | Some items => joined_text items
    | None => []
    end
  end.

(** ** The engine *)

(** What the JavaScript engine supplies and [server.js] relies on:
    [JSON.parse] on a string (a [SyntaxError] is a [Throw]), and the messages
    of the [TypeError]s it raises. *)
Class Engine : Type := {
  (** [JSON.parse(s)] for a string [s] *)
  json_parse_string : jsstring -> Exc JsVal;
  (** reading property [k] of [v], which is [undefined] or [null] *)
  msg_cannot_read : JsVal -> jsstring -> jsstring;
  (** calling the method [k], which is not a function *)
  msg_not_a_function : jsstring -> jsstring;
  (** an object with no usable [toString] or [valueOf] *)
  msg_not_primitive : jsstring
}.

(** ** A reference engine

    An instance of [Engine] to run the route on concrete requests: a parser of
    JSON text (integers of at most 15 digits for numbers) and the wording of
    V8's errors. *)

Definition SyntaxError (msg : jsstring) : JsError :=
  {| err_name := js "SyntaxError"; err_message := msg |}.

Definition json_ws (c : N) : bool :=
  ((c =? 32) || (c =? 9) || (c =? 10) || (c =? 13))%N.

Fixpoint skip_ws (s : jsstring) : jsstring :=
  match s with
  | [] => []
  | c :: r => if json_ws c then skip_ws r else s
  end.

Definition is_digit (c : N) : bool := ((48 <=? c) && (c <=? 57))%N.

Fixpoint span_digits (s : jsstring) : jsstring * jsstring :=
  match s with
  | [] => ([], [])
  | c :: r =>
    if is_digit c then let (ds, rest) := span_digits r in (c :: ds, rest)
    else ([], s)
  end.

Definition hex_digit (c : N) : option N :=
  if is_digit c then Some (c - 48)%N
  else if ((97 <=? c) && (c <=? 102))%N then Some (c - 87)%N
  else if ((65 <=? c) && (c <=? 70))%N then Some (c - 55)%N
  else None.

Definition hex4 (a b c d : N) : option N :=
  match hex_digit a, hex_digit b, hex_digit c, hex_digit d with
  | Some x, Some y, Some z, Some w => Some (((x * 16 + y) * 16 + z) * 16 + w)%N
  | _, _, _, _ => None
  end.

(** The escape [\e] of a JSON string, other than [\u]. *)
Definition simple_escape (e : N) : option N :=
  if (e =? 34)%N then Some 34%N
  else if (e =? 92)%N then Some 92%N
  else if (e =? 47)%N then Some 47%N
  else if (e =? 98)%N then Some 8%N
  else if (e =? 102)%N then Some 12%N
  else if (e =? 110)%N then Some 10%N
  else if (e =? 114)%N then Some 13%N
  else if (e =? 116)%N then Some 9%N
  else None.

(** The characters of a JSON string, after its opening quote. *)
Fixpoint parse_chars (s acc : jsstring) : option (jsstring * jsstring) :=
  match s with
  | [] => None
  | c :: r =>
    if (c =? 34)%N then Some (rev acc, r)
    else if (c =? 92)%N then
      match r with
      | [] => None
      | e :: r1 =>
        if (e =? 117)%N then
          match r1 with
          | h1 :: h2 :: h3 :: h4 :: r2 =>
            match hex4 h1 h2 h3 h4 with
            | Some u => parse_chars r2 (u :: acc)
            | None => None
            end
          | _ => None
          end
        else
          match simple_escape e with
          | Some u => parse_chars r1 (u :: acc)
          | None => None
          end
      end
    else if (c <? 32)%N then None
    else parse_chars r (c :: acc)
  end.

Definition parse_number (s : jsstring) : option (JsVal * jsstring) :=
  let (neg, s1) := match s with
                   | 45%N :: r => (true, r)
                   | _ => (false, s)
                   end in
  let (ds, rest) := span_digits s1 in
  match ds with
  | [] => None
  | d :: ds' =>
    let zero := (d =? 48)%N in
    let more := match rest with
                | c :: _ => ((c =? 46) || (c =? 101) || (c =? 69))%N
                | [] => false
                end in
    if (zero && negb (Nat.eqb (length ds') 0)) || more
       || Nat.ltb 15 (length ds) then None
    else
      Some (JNum {| num_truthy := negb zero;
                    num_repr := if zero then js "0"
                                else (if neg then js "-" else []) ++ ds |},
            rest)
  end.

Fixpoint strip_prefix (p s : jsstring) : option jsstring :=
  match p, s with
  | [], _ => Some s
  | x :: p', y :: s' => if (x =? y)%N then strip_prefix p' s' else None
  | _ :: _, [] => None
  end.

(** [CreateDataProperty]: a repeated key keeps its place and takes the new
    value. *)
Fixpoint set_prop (k : jsstring) (v : JsVal) (ps : list (jsstring * JsVal))
  : list (jsstring * JsVal) :=
  match ps with
  | [] => [(k, v)]
  | (k', v') :: r => if str_eqb k k' then (k', v) :: r else (k', v') :: set_prop k v r
  end.

Fixpoint parse_value (fuel : nat) (s : jsstring) : option (JsVal * jsstring) :=
  match fuel with
  | O => None
  | S f =>
    match skip_ws s with
    | [] => None
    | c :: r =>
      if (c =? 91)%N then
        match skip_ws r with
        | 93%N :: r' => Some (JArr [], r')
        | _ => parse_elements f r []
        end
      else if (c =? 123)%N then
        match skip_ws r with
        | 125%N :: r' => Some (JObj [], r')
        | _ => parse_members f r []
        end
      else if (c =? 34)%N then
        match parse_chars r [] with
        | Some (str, r') => Some (JStr str, r')
        | None => None
        end
      else if (c =? 110)%N then
        option_map (fun r' => (JNull, r')) (strip_prefix (js "ull") r)
      else if (c =? 116)%N then
        option_map (fun r' => (JBool true, r')) (strip_prefix (js "rue") r)
      else if (c =? 102)%N then
        option_map (fun r' => (JBool false, r')) (strip_prefix (js "alse") r)
      else parse_number (c :: r)
    end
  end
with parse_elements (fuel : nat) (s : jsstring) (acc : list JsVal)
  : option (JsVal * jsstring) :=
  match fuel with
  | O => None
  | S f =>
    match parse_value f s with
    | None => None
    | Some (v, r) =>
      match skip_ws r with
      | 44%N :: r' => parse_elements f r' (v :: acc)
      | 93%N :: r' => Some (JArr (rev (v :: acc)), r')
      | _ => None
      end
    end
  end
with parse_members (fuel : nat) (s : jsstring) (acc : list (jsstring * JsVal))
  : option (JsVal * jsstring) :=
  match fuel with
  | O => None
  | S f =>
    match skip_ws s with
    | 34%N :: r =>
      match parse_chars r [] with
      | None => None
      | Some (k, r1) =>
        match skip_ws r1 with
        | 58%N :: r2 =>
          match parse_value f r2 with
          | None => None
          | Some (v, r3) =>
            match skip_ws r3 with
            | 44%N :: r4 => parse_members f r4 (set_prop k v acc)
            | 125%N :: r4 => Some (JObj (set_prop k v acc), r4)
            | _ => None
            end
          end
        | _ => None
        end
      end
    | _ => None
    end
  end.

Definition reference_parse (s : jsstring) : Exc JsVal :=
  match parse_value (2 * length s + 2) s with
  | Some (v, r) =>
    match skip_ws r with
    | [] => Ok v
    | _ => Throw (SyntaxError (js "Unexpected non-whitespace character after JSON"))
    end
  | None => Throw (SyntaxError (js "Unexpected token"))
  end.

Definition reference_engine : Engine :=
  {| json_parse_string := reference_parse;
     msg_cannot_read := fun v k =>
       js "Cannot read properties of "
       ++ match v with JNull => js "null" | _ => js "undefined" end
       ++ js " (reading '" ++ k ++ js "')";
     msg_not_a_function := fun k =>
       js "(intermediate value)." ++ k ++ js " is not a function";
     msg_not_primitive := js "Cannot convert object to primitive value" |}.

(** *** Sample configuration, requests and upstreams *)

Definition hex_char (n : N) : N := if (n <? 10)%N then (48 + n)%N else (87 + n)%N.

Definition escape_unit (c : N) : jsstring :=
  if (c =? 34)%N then [92%N; 34%N]
  else if (c =? 92)%N then [92%N; 92%N]
  else if (c <? 32)%N then
    [92%N; 117%N; 48%N; 48%N; hex_char (c / 16); hex_char (c mod 16)]
  else [c].

Definition quote_string (s : jsstring) : jsstring :=
  [34%N] ++ flat_map escape_unit s ++ [34%N].

Fixpoint commas (ls : list jsstring) : jsstring :=
  match ls with
  | [] => []
  | l :: r =>
    match r with
    | [] => l
    | _ => l ++ [44%N] ++ commas r
    end
  end.

(** The JSON text of a value, as an upstream writes it in a body. *)
Fixpoint to_json_text (v : JsVal) : jsstring :=
  match v with
  | JUndefined | JNull => js "null"
  | JBool true => js "true"
  | JBool false => js "false"
  | JNum n => num_repr n
  | JStr s => quote_string s
  | JArr xs => [91%N] ++ commas (map to_json_text xs) ++ [93%N]
  | JObj ps =>
    [123%N]
    ++ commas (map (fun p => quote_string (fst p) ++ [58%N] ++ to_json_text (snd p)) ps)
    ++ [125%N]
  end.

Definition sample_config : Config :=
  {| APP_KEY := Some (js "app-secret"); OPENAI_API_KEY := Some (js "sk-test") |}.

(** A request with the header [key] and the body [{ text: v }]. *)
Definition request_with (key : option jsstring) (v : JsVal) : Request :=
  {| x_app_key := key; req_body := JObj [(js "text", v)] |}.

Definition keyed_request (v : JsVal) : Request :=
  request_with (Some (js "app-secret")) v.

(** The letter [a] followed by 12,000 spaces: 12,001 code units, one after
    trimming. *)
Definition padded_text : jsstring := js "a" ++ repeat 32%N (Z.to_nat 12000).

(** [n] times the letter [a]. *)
Definition letters (n : Z) : jsstring := repeat 97%N (Z.to_nat n).

(** An upstream that answers every request with status [c] and the body
    [text]. *)
Definition upstream_answering (c : Z) (text : jsstring)
  : FetchRequest -> Exc UpstreamResponse :=
  fun _ => Ok {| up_status := c; up_text := Ok text;
                 up_json := reference_parse text |}.

(** A body of the Responses API whose one message holds the text blocks
    [texts]. *)
Definition message_body (texts : list jsstring) : JsVal :=
  JObj [(js "id", JStr (js "resp_1"));
        (js "output",
         JArr [JObj [(js "type", JStr (js "reasoning"))];
               JObj [(js "type", JStr (js "message"));
                     (js "content",
                      JArr (map (fun t => JObj [(js "type", JStr (js "output_text"));
                                                (js "text", JStr t)]) texts))]])].

(** The valid reply of the specification's example. *)
Definition example_reply : jsstring :=
  js "{" ++ quoted "summary" ++ js ":" ++ quoted "ok" ++ js ","
  ++ quoted "what_it_means" ++ js ":" ++ quoted "x" ++ js ","
  ++ quoted "deadlines" ++ js ":[]," ++ quoted "steps" ++ js ":[],"
  ++ quoted "missing_info" ++ js ":[]," ++ quoted "risks" ++ js ":[],"
  ++ quoted "official_sites" ++ js ":[]}".

Definition example_parsed : JsVal :=
  JObj [(js "summary", JStr (js "ok")); (js "what_it_means", JStr (js "x"));
        (js "deadlines", JArr []); (js "steps", JArr []);
        (js "missing_info", JArr []); (js "risks", JArr []);
        (js "official_sites", JArr [])].

(** A response with an empty direct text beside an output list. *)
Definition empty_direct_text : JsVal :=
  JObj [(js "output_text", JStr []);
        (js "output",
         JArr [JObj [(js "content",
                      JArr [JObj [(js "type", JStr (js "text"));
                                  (js "text", JStr (js "hi"))]])]])].

(** A configuration with the application key and no upstream credential. *)
Definition config_without_credential : Config :=
  {| APP_KEY := Some (js "app-secret"); OPENAI_API_KEY := None |}.

(** A network on which every [fetch] rejects. *)
Definition failing_network : FetchRequest -> Exc UpstreamResponse :=
  fun _ => Throw (TypeError (js "fetch failed")).

(** Responses whose direct output text is an object, and an array. *)
Definition object_direct_text : JsVal := JObj [(js "output_text", JObj [])].

Definition array_direct_text : JsVal :=
  JObj [(js "output_text", JArr [JStr (js "a"); JStr (js "b")])].

(** An output item whose content is one block, not an array of blocks. *)
Definition single_block_item : JsVal :=
  JObj [(js "content",
         JObj [(js "type", JStr (js "text")); (js "text", JStr (js "solo"))])].

(** ** The route *)

Section Route.

Context {engine : Engine}.
Local Open Scope exc_scope.

(** [v.k] for a key [k] that no prototype defines ([text], [output_text],
    [output], [content], [type]): the own property of an object, [undefined]
    on any other value, and a [TypeError] on [undefined] and [null]. *)
Definition get (v : JsVal) (k : jsstring) : Exc JsVal :=
  match v with
  | JUndefined | JNull => Throw (TypeError (msg_cannot_read v k))
  | JObj ps => Ok (lookup k ps)
  | _ => Ok JUndefined
  end.

(** [v?.k], for such a key. *)
Definition get_optional (v : JsVal) (k : jsstring) : JsVal :=
  match v with
  | JObj ps => lookup k ps
  | _ => JUndefined
  end.

(** [v.trim()]: [String.prototype.trim] on a string; on any other value the
    property is missing or, on an object of JSON, not a function. *)
Definition call_trim (v : JsVal) : Exc jsstring :=
  match v with
  | JStr s => Ok (trim s)
  | JUndefined | JNull => Throw (TypeError (msg_cannot_read v (js "trim")))
  | _ => Throw (TypeError (msg_not_a_function (js "trim")))
  end.

(** [xs.join(sep)] over [ToString] [ts]: [undefined] and [null] elements
    give the empty string. *)
Definition join_by (ts : JsVal -> Exc jsstring) (sep : jsstring)
  : list JsVal -> Exc jsstring :=
  fix go (xs : list JsVal) : Exc jsstring :=
    match xs with
    | [] => Ok []
    | x :: r =>
      s <- match x with
           | JUndefined | JNull => Ok []
           | _ => ts x
           end ;;
      match r with
      | [] => Ok s
      | _ => t <- go r ;; Ok (s ++ sep ++ t)
      end
    end.

(** [ToString(v)]. An array is joined with commas; an object of JSON is
    [[object Object]] unless an own [toString] property (never a function)
    hides [Object.prototype.toString]. *)
Fixpoint to_string (v : JsVal) : Exc jsstring :=
  match v with
  | JUndefined => Ok (js "undefined")
  | JNull => Ok (js "null")
  | JBool true => Ok (js "true")
  | JBool false => Ok (js "false")
  | JNum n => Ok (num_repr n)
  | JStr s => Ok s
  | JArr xs => join_by to_string (js ",") xs
  | JObj ps =>
    if has_own (js "toString") ps then Throw (TypeError msg_not_primitive)
    else Ok (js "[object Object]")
  end.

(** [xs.join(sep)] *)
Definition join (sep : jsstring) (xs : list JsVal) : Exc jsstring :=
  join_by to_string sep xs.

(** [xs.flatMap(f)]: the result of [f] is spliced when it is an array. *)
Fixpoint flatMap (f : JsVal -> Exc JsVal) (xs : list JsVal) : Exc (list JsVal) :=
  match xs with
  | [] => Ok []
  | x :: r =>
    y <- f x ;;
    ys <- flatMap f r ;;
    Ok (match y with JArr l => l | _ => [y] end ++ ys)
  end.

(** [xs.filter(f)] *)
Fixpoint filter_js (f : JsVal -> Exc bool) (xs : list JsVal) : Exc (list JsVal) :=
  match xs with
  | [] => Ok []
  | x :: r =>
    b <- f x ;;
    ys <- filter_js f r ;;
    Ok (if b then x :: ys else ys)
  end.

(** [xs.map(f)] *)
Fixpoint map_js (f : JsVal -> Exc JsVal) (xs : list JsVal) : Exc (list JsVal) :=
  match xs with
  | [] => Ok []
  | x :: r =>
    y <- f x ;;
    ys <- map_js f r ;;
    Ok (y :: ys)
  end.

(** [JSON.parse(v)]: [ToString] of the argument, then the parse. *)
Definition JSON_parse (v : JsVal) : Exc JsVal :=
  s <- to_string v ;; json_parse_string s.

(** [v?.slice(0, 2000)]: [String.prototype.slice], [Array.prototype.slice];
    on any other value that is not nullish, a call of what is no function. *)
Definition optional_slice_2000 (v : JsVal) : Exc JsVal :=
  match v with
  | JUndefined | JNull => Ok JUndefined
  | JStr s => Ok (JStr (slice0 2000 s))
  | JArr xs => Ok (JArr (slice0 2000 xs))
  | _ => Throw (TypeError (msg_not_a_function (js "slice")))
  end.

(** [r.text()] *)
Definition r_text (r : UpstreamResponse) : Exc jsstring := up_text r.

(** [r.json()] *)
Definition r_json (r : UpstreamResponse) : Exc JsVal := up_json r.

(** ** The middleware *)

(** [requireAppKey(req, res, next)] *)
Definition requireAppKey (cfg : Config) (req : Request) (next : Async Response)
  : Async Response :=
  let key := x_app_key req in
  if negb (truthy (of_optional (APP_KEY cfg)))
     || strict_neq_optional key (APP_KEY cfg)
  then Done (res_status_json 401 (JObj [(js "error", JStr (js "Unauthorized"))]))
  else next.

(** ** The handler *)

Definition lines (ls : list jsstring) : jsstring :=
  concat (map (fun l => l ++ [10%N]) ls).

(** The template literal [instructions], trimmed. *)
Definition instructions : jsstring :=
  trim ([10%N] ++ lines [
    js "Tu es Clarifia, assistant administratif français.";
    js "Tu réponds UNIQUEMENT en JSON valide, sans markdown, sans texte autour.";
    [];
    js "Schéma JSON EXACT :";
    js "{";
    js "  " ++ quoted "summary" ++ js ": " ++ quoted "résumé en 2-4 lignes" ++ js ",";
    js "  " ++ quoted "what_it_means" ++ js ": "
      ++ quoted "ce que l'organisme attend (clair)" ++ js ",";
    js "  " ++ quoted "deadlines" ++ js ": [{" ++ quoted "label" ++ js ":"
      ++ quoted "..." ++ js ", " ++ quoted "date" ++ js ":"
      ++ quoted "YYYY-MM-DD ou null" ++ js ", " ++ quoted "notes" ++ js ":"
      ++ quoted "..." ++ js "}],";
    js "  " ++ quoted "steps" ++ js ": [{" ++ quoted "title" ++ js ":"
      ++ quoted "..." ++ js ", " ++ quoted "details" ++ js ":" ++ quoted "..."
      ++ js "}],";
    js "  " ++ quoted "missing_info" ++ js ": [" ++ quoted "..." ++ js "],";
    js "  " ++ quoted "risks" ++ js ": [" ++ quoted "..." ++ js "],";
    js "  " ++ quoted "official_sites" ++ js ": [{" ++ quoted "name" ++ js ":"
      ++ quoted "..." ++ js ", " ++ quoted "url" ++ js ":" ++ quoted "..."
      ++ js "}]";
    js "}";
    [];
    js "Règles:";
    js "- Si date incertaine: date = null, explique dans notes.";
    js "- Français simple, actionnable.";
    js "- Ne pas inventer de liens: si doute, mettre service-public.fr."
  ]).

(** [`Bearer ${key}`] *)
Definition bearer (key : option jsstring) : jsstring :=
  js "Bearer " ++ match key with
                  | Some k => k
                  | None => js "undefined"
                  end.

(** The [fetch] the handler sends for the trimmed [text]. *)
Definition upstream_request (cfg : Config) (text : jsstring) : FetchRequest :=
  {| url := js "https://api.openai.com/v1/responses";
     method := js "POST";
     authorization := bearer (OPENAI_API_KEY cfg);
     content_type := js "application/json";
     fetch_body := {| model := js "gpt-4o-mini";
                      payload_instructions := instructions;
                      input := text;
                      max_output_tokens := 900 |} |}.

(** [req.body?.text] *)
Definition text_field (req : Request) : JsVal :=
  get_optional (req_body req) (js "text").

(** [(req.body?.text || "").trim()] *)
Definition body_text (req : Request) : Exc jsstring :=
  call_trim (or_else (text_field req) (JStr [])).

(** [(o) => o.content || []] *)
Definition content_of (o : JsVal) : Exc JsVal :=
  c <- get o (js "content") ;; Ok (or_else c (JArr [])).

(** [(c) => c.type === "output_text" || c.type === "text"] *)
Definition is_text_block (c : JsVal) : Exc bool :=
  t <- get c (js "type") ;;
  Ok (strict_eq_str t (js "output_text") || strict_eq_str t (js "text")).

(** [(c) => c.text || ""] *)
Definition text_of_block (c : JsVal) : Exc JsVal :=
  t <- get c (js "text") ;; Ok (or_else t (JStr [])).

(** The scan of the output list:
    [output.flatMap(...).filter(...).map(...).join("\n")]. *)
Definition scan_output (items : list JsVal) : Exc JsVal :=
  blocks <- flatMap content_of items ;;
  kept <- filter_js is_text_block blocks ;;
  texts <- map_js text_of_block kept ;;
  s <- join [10%N] texts ;;
  Ok (JStr s).

(** The extraction of [raw] from the parsed upstream body [data]:
    [data.output_text || (Array.isArray(data.output) ? ... : "")]. *)
Definition extract_raw (data : JsVal) : Exc JsVal :=
  output_text <- get data (js "output_text") ;;
  if truthy output_text then Ok output_text
  else
    output <- get data (js "output") ;;
    match output with
    | JArr items => scan_output items
    | _ => Ok (JStr [])
    end.

Definition error_body (msg : string) : JsVal := JObj [(js "error", JStr (js msg))].

Definition too_long_message : jsstring :=
  js "Texte trop long (max ~12 000 caractères pour le MVP).".

(** The inner [try { parsed = JSON.parse(raw) } catch { ... }] and the
    final [res.json(parsed)]. *)
Definition respond_parsed (raw : JsVal) : Exc Response :=
  match JSON_parse raw with
  | Ok parsed => Ok (res_json parsed)
  | Throw _ =>
    cut <- optional_slice_2000 raw ;;
    Ok (res_status_json 500
          (JObj [(js "error",
                  JStr (js "AI did not return valid JSON. Adjust prompt."));
                 (js "raw", or_else cut (JStr []))]))
  end.

(** The statements of the [try] block after [fetch] has resolved to [r]. *)
Definition analyze_response (r : UpstreamResponse) : Exc Response :=
  if negb (r_ok r) then
    errText <- r_text r ;;
    Ok (res_status_json 502
          (JObj [(js "error", JStr (js "OpenAI request failed"));
                 (js "details", JStr errText)]))
  else
    data <- r_json r ;;
    raw <- extract_raw data ;;
    respond_parsed raw.

(** The body of the handler's [try] block. *)
Definition analyze_try (cfg : Config) (req : Request) : Task Response :=
  (text <- liftT (body_text req) ;;
   if negb (truthy (JStr text)) then
     retT (res_status_json 400 (error_body "Le champ 'text' est requis."))
   else if Z.of_nat (length text) >? 12000 then
     retT (res_status_json 400 (JObj [(js "error", JStr too_long_message)]))
   else if negb (truthy (of_optional (OPENAI_API_KEY cfg))) then
     retT (res_status_json 500
             (error_body "Server misconfigured (missing OPENAI_API_KEY)"))
   else
     r <- fetch (upstream_request cfg text) ;;
     liftT (analyze_response r))%task.

(** The handler's [catch (e)] block. *)
Definition server_error (e : JsError) : Response :=
  res_status_json 500
    (JObj [(js "error", JStr (js "Server error"));
           (js "details", JStr (String_of_error e))]).

(** The handler of [POST /analyze]. *)
Definition analyze (cfg : Config) (req : Request) : Async Response :=
  try_catch (analyze_try cfg req) server_error.

(** The route: [app.post("/analyze", requireAppKey, handler)]. *)
Definition post_analyze (cfg : Config) (req : Request) : Async Response :=
  requireAppKey cfg req (analyze cfg req).

(** The request carries the configured, non-empty application key. *)
Definition authorized (cfg : Config) (req : Request) : Prop :=
  exists k, APP_KEY cfg = Some k /\ k <> [] /\ x_app_key req = Some k.

(** The upstream credential is configured. *)
Definition credential_set (cfg : Config) : Prop :=
  exists k, OPENAI_API_KEY cfg = Some k /\ k <> [].

(** The request's text passes validation, and [t] is its trimmed form. *)
Definition valid_text (req : Request) (t : jsstring) : Prop :=
  body_text req = Ok t /\ t <> [] /\ Z.of_nat (length t) <= 12000.

(** The response the handler sends once [fetch] has settled with [settled]:
    what the rest of the [try] block returns, or the [catch] block's answer
    to what was thrown. *)
Definition settle (settled : Exc UpstreamResponse) : Response :=
  match bindE settled analyze_response with
  | Ok resp => resp
  | Throw e => server_error e
  end.

(** The startup checks: the lines they write with [console.error], in
    order. *)
Definition missing_openai_key_message : jsstring :=
  js "❌ Missing OPENAI_API_KEY in .env".

Definition missing_app_key_message : jsstring :=
  js "❌ Missing CLARIFIA_APP_KEY in .env".

Definition startup_errors (cfg : Config) : list jsstring :=
  (if negb (truthy (of_optional (OPENAI_API_KEY cfg)))
   then [missing_openai_key_message] else [])
  ++ (if negb (truthy (of_optional (APP_KEY cfg)))
      then [missing_app_key_message] else []).

(** A raw value that has no [slice] to call: neither a string nor an array,
    and not nullish. *)
Definition no_slice (raw : JsVal) : Prop :=
  match raw with
  | JBool _ | JNum _ | JObj _ => True
  | _ => False
  end.

(** The forms an error response of the route takes, by the handler's exits. *)
Inductive ErrorForm : Response -> Prop :=
| Unauthorized :
    ErrorForm (res_status_json 401 (error_body "Unauthorized"))
| TextRequired :
    ErrorForm (res_status_json 400 (error_body "Le champ 'text' est requis."))
| TextTooLong :
    ErrorForm (res_status_json 400 (JObj [(js "error", JStr too_long_message)]))
| Misconfigured :
    ErrorForm (res_status_json 500
                 (error_body "Server misconfigured (missing OPENAI_API_KEY)"))
| BadGateway (errText : jsstring) :
    ErrorForm (res_status_json 502
                 (JObj [(js "error", JStr (js "OpenAI request failed"));
                        (js "details", JStr errText)]))
| OutputInvalidText (cut : jsstring) :
    (length cut <= 2000)%nat ->
    ErrorForm (res_status_json 500
                 (JObj [(js "error",
                         JStr (js "AI did not return valid JSON. Adjust prompt."));
                        (js "raw", JStr cut)]))
| OutputInvalidArray (cut : list JsVal) :
    (length cut <= 2000)%nat ->
    ErrorForm (res_status_json 500
                 (JObj [(js "error",
                         JStr (js "AI did not return valid JSON. Adjust prompt."));
                        (js "raw", JArr cut)]))
| ServerError (e : JsError) :
    ErrorForm (server_error e).

(** An error response: one of the route's error statuses, with a JSON object
    for body whose first property is [error], a string; the 400 and 401
    bodies hold nothing else. *)
Definition error_response (resp : Response) : Prop :=
  In (status resp) [400; 401; 500; 502]
  /\ (exists msg rest, body resp = JObj ((js "error", JStr msg) :: rest))
  /\ (status resp = 400 \/ status resp = 401 ->
      exists msg, body resp = JObj [(js "error", JStr msg)]).

(** ** Properties of the route *)

Arguments js : simpl never.
Arguments trim : simpl never.
Arguments instructions : simpl never.
Arguments upstream_request : simpl never.
Arguments String_of_error : simpl never.
Arguments slice0 : simpl never.

Lemma str_eqb_refl (a : jsstring) : str_eqb a a = true.
Proof.
  induction a as [|x a IH]; simpl; [reflexivity|].
  now rewrite N.eqb_refl, IH.
Qed.

Lemma str_eqb_eq (a b : jsstring) : str_eqb a b = true <-> a = b.
Proof.
  split; [|intros ->; apply str_eqb_refl].
  revert b; induction a as [|x a IH]; intros [|y b]; simpl; try congruence.
  intros H; apply andb_true_iff in H as [Hx Hr].
  apply N.eqb_eq in Hx. apply IH in Hr. congruence.
Qed.

Lemma str_eqb_neq (a b : jsstring) : a <> b -> str_eqb a b = false.
Proof.
  intros H. destruct (str_eqb a b) eqn:E; [|reflexivity].
  apply str_eqb_eq in E. contradiction.
Qed.

(** *** [trim] strips white space, and only white space, from both ends *)

Lemma trim_start_split (s : jsstring) :
  exists l, s = l ++ trim_start s /\ forallb is_white_space l = true.
Proof.
  induction s as [|c s (l & IH & Hl)]; [exists []; auto|].
  cbn [trim_start]. destruct (is_white_space c) eqn:E.
  - exists (c :: l). cbn [forallb]. rewrite E, Hl. split; [|reflexivity].
    cbn [app]. now rewrite <- IH.
  - exists []. auto.
Qed.

Lemma trim_end_split (s : jsstring) :
  exists r, s = trim_end s ++ r /\ forallb is_white_space r = true.
Proof.
  induction s as [|c s (r & IH & Hr)]; [exists []; auto|].
  cbn [trim_end]. destruct (trim_end s) as [|d t] eqn:Et.
  - cbn [app] in IH. subst r. destruct (is_white_space c) eqn:E.
    + exists (c :: s). cbn [forallb]. now rewrite E, Hr.
    + exists s. auto.
  - exists r. split; [|exact Hr]. cbn [app]. now rewrite IH at 1.
Qed.

Lemma trim_split (s : jsstring) :
  exists l r, s = l ++ trim s ++ r
    /\ forallb is_white_space l = true /\ forallb is_white_space r = true.
Proof.
  destruct (trim_start_split s) as (l & Hs & Hl).
  destruct (trim_end_split (trim_start s)) as (r & Ht & Hr).
  exists l, r. unfold trim. rewrite <- Ht. auto.
Qed.

Lemma trim_length (s : jsstring) : (length (trim s) <= length s)%nat.
Proof.
  destruct (trim_split s) as (l & r & E & _).
  rewrite E at 2. rewrite !length_app. lia.
Qed.

Lemma trim_start_head (s : jsstring) (c : N) (t : jsstring) :
  trim_start s = c :: t -> is_white_space c = false.
Proof.
  induction s as [|d s IH]; cbn [trim_start]; [discriminate|].
  destruct (is_white_space d) eqn:E; [exact IH|].
  intros H. injection H as <- _. exact E.
Qed.

Lemma trim_end_last (s t : jsstring) (c : N) :
  trim_end s = t ++ [c] -> is_white_space c = false.
Proof.
  revert t. induction s as [|d s IH]; intros t; cbn [trim_end].
  - destruct t; discriminate.
  - destruct (trim_end s) as [|e u] eqn:Et.
    + destruct (is_white_space d) eqn:E; [destruct t; discriminate|].
      destruct t as [|x [|y t]]; try discriminate.
      intros H. injection H as <-. exact E.
    + destruct t as [|x t]; [discriminate|].
      intros H. injection H as _ H. exact (IH t H).
Qed.

Lemma trim_white_space_only (s : jsstring) :
  forallb is_white_space s = true -> trim s = [].
Proof.
  intros H. unfold trim.
  assert (E : trim_start s = []).
  { induction s as [|c s IH]; [reflexivity|]. cbn [forallb] in H.
    apply andb_true_iff in H as [Hc Hs]. cbn [trim_start]. rewrite Hc. auto. }
  rewrite E. reflexivity.
Qed.

Lemma truthy_str (t : jsstring) :
  truthy (JStr t) = negb (match t with [] => true | _ => false end).
Proof. destruct t; reflexivity. Qed.

Lemma or_else_str (l : jsstring) : or_else (JStr l) (JStr []) = JStr l.
Proof. destruct l; reflexivity. Qed.

Lemma body_text_string (req : Request) (s : jsstring) :
  text_field req = JStr s -> body_text req = Ok (trim s).
Proof.
  intros H. unfold body_text. rewrite H, or_else_str. reflexivity.
Qed.

Lemma authorized_next (cfg : Config) (req : Request) (next : Async Response) :
  authorized cfg req -> requireAppKey cfg req next = next.
Proof.
  intros (k & Hk & Hne & Hh). unfold requireAppKey. rewrite Hk, Hh. simpl.
  rewrite str_eqb_refl. destruct k; [contradiction|reflexivity].
Qed.

Lemma credential_truthy (cfg : Config) :
  credential_set cfg -> truthy (of_optional (OPENAI_API_KEY cfg)) = true.
Proof.
  intros (k & Hk & Hne). rewrite Hk. destruct k; [contradiction|reflexivity].
Qed.

Lemma gtb_false (a b : Z) : a <= b -> (a >? b) = false.
Proof. intros H. rewrite Z.gtb_ltb. apply Z.ltb_ge. exact H. Qed.

Lemma gtb_true (a b : Z) : b < a -> (a >? b) = true.
Proof. intros H. rewrite Z.gtb_ltb. apply Z.ltb_lt. exact H. Qed.

Ltac handler_step :=
  cbn [negb liftT retT bindT bindA bindE try_catch run fetch fst snd].

(** A text that passes validation: without the upstream credential the
    answer is the 500 of a misconfigured server and nothing is sent; with it,
    one request is sent and the response is what the handler makes of the
    settled [fetch]. *)
Lemma validated_run (cfg : Config) (req : Request) (t : jsstring)
  (net : FetchRequest -> Exc UpstreamResponse) :
  authorized cfg req -> valid_text req t ->
  run net (post_analyze cfg req)
  = if truthy (of_optional (OPENAI_API_KEY cfg))
    then (settle (net (upstream_request cfg t)), [upstream_request cfg t])
    else (res_status_json 500
            (error_body "Server misconfigured (missing OPENAI_API_KEY)"), []).
Proof.
  intros Ha (Hb & Hne & Hlen).
  unfold post_analyze. rewrite authorized_next by assumption.
  unfold analyze, analyze_try, settle. rewrite Hb. handler_step.
  rewrite truthy_str. destruct t as [|c t]; [contradiction|]. handler_step.
  rewrite gtb_false by assumption.
  destruct (truthy (of_optional (OPENAI_API_KEY cfg))); handler_step;
    [|reflexivity].
  destruct (net (upstream_request cfg (c :: t))) as [r|e]; handler_step;
    [|reflexivity].
  destruct (analyze_response r); reflexivity.
Qed.

(** With the credential configured, exactly one request is sent. *)
Lemma valid_request_run (cfg : Config) (req : Request) (t : jsstring)
  (net : FetchRequest -> Exc UpstreamResponse) :
  authorized cfg req -> valid_text req t -> credential_set cfg ->
  run net (post_analyze cfg req)
  = (settle (net (upstream_request cfg t)), [upstream_request cfg t]).
Proof.
  intros Ha Hv Hc. rewrite (validated_run cfg req t net Ha Hv).
  now rewrite credential_truthy.
Qed.

Lemma valid_text_string (req : Request) (s : jsstring) :
  text_field req = JStr s -> trim s <> [] ->
  Z.of_nat (length (trim s)) <= 12000 ->
  valid_text req (trim s).
Proof.
  intros Ht Hne Hlen. repeat split; auto using body_text_string.
Qed.

Lemma empty_text_run (cfg : Config) (req : Request) (s : jsstring)
  (net : FetchRequest -> Exc UpstreamResponse) :
  authorized cfg req -> text_field req = JStr s -> trim s = [] ->
  run net (post_analyze cfg req)
  = (res_status_json 400 (error_body "Le champ 'text' est requis."), []).
Proof.
  intros Ha Ht He. unfold post_analyze. rewrite authorized_next by assumption.
  unfold analyze, analyze_try. rewrite (body_text_string _ _ Ht), He.
  reflexivity.
Qed.

Lemma settle_status (settled : Exc UpstreamResponse) :
  In (status (settle settled)) [200; 500; 502].
Proof.
  unfold settle, server_error.
  destruct settled as [r|e]; cbn [bindE]; [|simpl; auto].
  unfold analyze_response, respond_parsed.
  destruct (r_ok r); cbn [negb].
  - destruct (r_json r) as [data|e]; cbn [bindE]; [|simpl; auto].
    destruct (extract_raw data) as [raw|e]; cbn [bindE]; [|simpl; auto].
    destruct (JSON_parse raw) as [parsed|e]; [simpl; auto|].
    destruct (optional_slice_2000 raw) as [cut|e']; simpl; auto.
  - destruct (r_text r) as [errText|e]; simpl; auto.
Qed.

(** A text that passes validation is not answered 400. *)
Lemma validated_not_400 (cfg : Config) (req : Request) (t : jsstring)
  (net : FetchRequest -> Exc UpstreamResponse) :
  authorized cfg req -> valid_text req t ->
  status (fst (run net (post_analyze cfg req))) <> 400.
Proof.
  intros Ha Hv. rewrite (validated_run cfg req t net Ha Hv).
  destruct (truthy (of_optional (OPENAI_API_KEY cfg))); cbn [fst];
    [|discriminate].
  pose proof (settle_status (net (upstream_request cfg t))) as H.
  simpl in H. intros E. rewrite E in H.
  destruct H as [H|[H|[H|[]]]]; discriminate.
Qed.

Lemma too_long_run (cfg : Config) (req : Request) (t : jsstring)
  (net : FetchRequest -> Exc UpstreamResponse) :
  authorized cfg req -> body_text req = Ok t ->
  12000 < Z.of_nat (length t) ->
  run net (post_analyze cfg req)
  = (res_status_json 400 (JObj [(js "error", JStr too_long_message)]), []).
Proof.
  intros Ha Hb Hlen.
  unfold post_analyze. rewrite authorized_next by assumption.
  unfold analyze, analyze_try. rewrite Hb. handler_step.
  rewrite truthy_str. destruct t as [|c t]; [simpl in Hlen; lia|].
  handler_step. rewrite gtb_true by assumption. reflexivity.
Qed.

(** C2, as the code has it. With the correct key, a text whose trimmed form
    has 12,001 code units or more is answered 400 with a message that names
    the limit of 12 000 and nothing is sent upstream; a text whose trimmed
    form has exactly 12,000 is not answered 400. *)
Theorem trimmed_length_limit (cfg : Config) (req : Request) (s : jsstring)
  (net : FetchRequest -> Exc UpstreamResponse) :
  authorized cfg req ->
  text_field req = JStr s ->
  (12001 <= Z.of_nat (length (trim s)) ->
   run net (post_analyze cfg req)
   = (res_status_json 400 (JObj [(js "error", JStr too_long_message)]), []))
  /\ (Z.of_nat (length (trim s)) = 12000 ->
      status (fst (run net (post_analyze cfg req))) <> 400)
  /\ (exists a b, too_long_message = a ++ js "12 000" ++ b).
Proof.
  intros Ha Ht. split; [|split].
  - intros Hlen. apply (too_long_run cfg req (trim s)); [assumption| |lia].
    now apply body_text_string.
  - intros Hlen. apply (validated_not_400 cfg req (trim s)); [assumption|].
    apply valid_text_string; [assumption| |lia].
    intros E. rewrite E in Hlen. discriminate.
  - exists (js "Texte trop long (max ~"), (js " caractères pour le MVP).").
    vm_compute. reflexivity.
Qed.

(** C9. The length check reads the trimmed text: with the correct key, a text
    whose trimmed form has at most 12,000 code units is not answered with the
    length error, however long the untrimmed text is; and when the trimmed
    text is not empty and the credential is configured, the one request sent
    upstream carries the trimmed text as [input]. *)
Theorem trimmed_text_is_checked_and_sent (cfg : Config) (req : Request)
  (s : jsstring) (net : FetchRequest -> Exc UpstreamResponse) :
  authorized cfg req ->
  text_field req = JStr s ->
  Z.of_nat (length (trim s)) <= 12000 ->
  fst (run net (post_analyze cfg req))
    <> res_status_json 400 (JObj [(js "error", JStr too_long_message)])
  /\ (trim s <> [] -> credential_set cfg ->
      snd (run net (post_analyze cfg req)) = [upstream_request cfg (trim s)]
      /\ input (fetch_body (upstream_request cfg (trim s))) = trim s).
Proof.
  intros Ha Ht Hlen. split.
  - destruct (trim s) as [|c t] eqn:E.
    + rewrite (empty_text_run cfg req s net Ha Ht E). cbn [fst].
      intros H. vm_compute in H. discriminate.
    + intros H.
      apply (validated_not_400 cfg req (trim s) net Ha).
      * apply valid_text_string; rewrite ?E; [assumption|discriminate|assumption].
      * rewrite H. reflexivity.
  - intros Hne Hc.
    rewrite (valid_request_run cfg req (trim s) net Ha
               (valid_text_string req s Ht Hne Hlen) Hc).
    split; reflexivity.
Qed.

(** C7. When the upstream answers with a non-success status, the response is
    502 with body [{ error: "OpenAI request failed", details: errText }],
    [errText] being the upstream's body as text; exactly one request was
    sent (no retry). *)
Theorem upstream_failure_is_502 (cfg : Config) (req : Request) (t : jsstring)
  (net : FetchRequest -> Exc UpstreamResponse)
  (r : UpstreamResponse) (errText : jsstring) :
  authorized cfg req -> valid_text req t -> credential_set cfg ->
  net (upstream_request cfg t) = Ok r ->
  r_ok r = false ->
  r_text r = Ok errText ->
  run net (post_analyze cfg req)
  = (res_status_json 502
       (JObj [(js "error", JStr (js "OpenAI request failed"));
              (js "details", JStr errText)]),
     [upstream_request cfg t]).
Proof.
  intros Ha Hv Hc Hn Hok Ht.
  rewrite (valid_request_run cfg req t net Ha Hv Hc), Hn.
  unfold settle, analyze_response. handler_step. rewrite Hok, Ht. reflexivity.
Qed.

(** C3. When the upstream call succeeds and the extracted raw text does not
    parse as JSON, the response is 500 with [error] equal to
    ["AI did not return valid JSON. Adjust prompt."] and [raw] equal to the
    first 2000 code units of the raw text (all of it when it is shorter);
    the parse failure does not reach the handler's catch block. *)
Theorem invalid_json_is_500 (cfg : Config) (req : Request) (t : jsstring)
  (net : FetchRequest -> Exc UpstreamResponse)
  (r : UpstreamResponse) (data : JsVal) (raw : jsstring) (e : JsError) :
  authorized cfg req -> valid_text req t -> credential_set cfg ->
  net (upstream_request cfg t) = Ok r ->
  r_ok r = true ->
  r_json r = Ok data ->
  extract_raw data = Ok (JStr raw) ->
  json_parse_string raw = Throw e ->
  run net (post_analyze cfg req)
  = (res_status_json 500
       (JObj [(js "error",
               JStr (js "AI did not return valid JSON. Adjust prompt."));
              (js "raw", JStr (firstn 2000 raw))]),
     [upstream_request cfg t])
  /\ (length (firstn 2000 raw) <= 2000)%nat
  /\ (exists rest, raw = firstn 2000 raw ++ rest).
Proof.
  intros Ha Hv Hc Hn Hok Hj Hx Hp. split; [|split].
  - rewrite (valid_request_run cfg req t net Ha Hv Hc), Hn.
    unfold settle, analyze_response. handler_step. rewrite Hok, Hj.
    handler_step. rewrite Hx. handler_step.
    unfold respond_parsed, JSON_parse. cbn [to_string bindE]. rewrite Hp.
    cbn [optional_slice_2000 bindE]. unfold slice0. rewrite or_else_str.
    reflexivity.
  - apply firstn_le_length.
  - exists (skipn 2000 raw). symmetry. apply firstn_skipn.
Qed.

(** C4. When authentication and validation pass and the upstream call
    succeeds with a raw text that parses as JSON, the response is 200 with
    the parsed value itself as the body; one request was sent. *)
Theorem valid_json_is_200 (cfg : Config) (req : Request) (t : jsstring)
  (net : FetchRequest -> Exc UpstreamResponse)
  (r : UpstreamResponse) (data : JsVal) (raw : jsstring) (parsed : JsVal) :
  authorized cfg req -> valid_text req t -> credential_set cfg ->
  net (upstream_request cfg t) = Ok r ->
  r_ok r = true ->
  r_json r = Ok data ->
  extract_raw data = Ok (JStr raw) ->
  json_parse_string raw = Ok parsed ->
  run net (post_analyze cfg req)
  = ({| status := 200; body := parsed |}, [upstream_request cfg t]).
Proof.
  intros Ha Hv Hc Hn Hok Hj Hx Hp.
  rewrite (valid_request_run cfg req t net Ha Hv Hc), Hn.
  unfold settle, analyze_response. handler_step. rewrite Hok, Hj.
  handler_step. rewrite Hx. handler_step.
  unfold respond_parsed, JSON_parse. cbn [to_string bindE]. rewrite Hp.
  reflexivity.
Qed.

Lemma run_try_catch {A : Type} (net : FetchRequest -> Exc UpstreamResponse)
  (m : Task A) (h : JsError -> A) :
  run net (try_catch m h)
  = (match fst (run net m) with
     | Ok a => a
     | Throw e => h e
     end, snd (run net m)).
Proof.
  unfold try_catch. induction m as [x|rq k IH]; cbn [bindA run].
  - destruct x; reflexivity.
  - rewrite IH. destruct (run net (k (net rq))) as [y sent]. reflexivity.
Qed.

Lemma settle_outcome (settled : Exc UpstreamResponse) :
  status (settle settled) = 200 \/ error_response (settle settled).
Proof.
  unfold settle, error_response, server_error.
  destruct settled as [r|e]; cbn [bindE];
    [|right; simpl; intuition (try discriminate; eauto)].
  unfold analyze_response, respond_parsed.
  destruct (r_ok r); cbn [negb].
  - destruct (r_json r) as [data|e]; cbn [bindE];
      [|right; simpl; intuition (try discriminate; eauto)].
    destruct (extract_raw data) as [raw|e]; cbn [bindE];
      [|right; simpl; intuition (try discriminate; eauto)].
    destruct (JSON_parse raw) as [parsed|e]; [left; reflexivity|].
    destruct (optional_slice_2000 raw) as [cut|e']; cbn [bindE];
      right; simpl; intuition (try discriminate; eauto).
  - destruct (r_text r) as [errText|e]; cbn [bindE];
      right; simpl; intuition (try discriminate; eauto).
Qed.

(** Every response of the route is a 200 or an error response. *)
Lemma route_outcome (cfg : Config) (req : Request)
  (net : FetchRequest -> Exc UpstreamResponse) :
  status (fst (run net (post_analyze cfg req))) = 200
  \/ error_response (fst (run net (post_analyze cfg req))).
Proof.
  unfold post_analyze, requireAppKey.
  destruct (negb (truthy (of_optional (APP_KEY cfg)))
            || strict_neq_optional (x_app_key req) (APP_KEY cfg)).
  { right. unfold error_response. simpl. intuition eauto. }
  unfold analyze. rewrite run_try_catch. cbn [fst]. unfold analyze_try.
  destruct (body_text req) as [t|e]; handler_step.
  2:{ right. unfold error_response, server_error. simpl.
      intuition (try discriminate; eauto). }
  destruct (negb (truthy (JStr t))); handler_step.
  { right. unfold error_response, error_body. simpl. intuition eauto. }
  destruct (Z.of_nat (length t) >? 12000); handler_step.
  { right. unfold error_response. simpl. intuition eauto. }
  destruct (negb (truthy (of_optional (OPENAI_API_KEY cfg)))); handler_step.
  { right. unfold error_response, error_body. simpl.
    intuition (try discriminate; eauto). }
  pose proof (settle_outcome (net (upstream_request cfg t))) as Hs.
  unfold settle in Hs.
  destruct (net (upstream_request cfg t)) as [r|e]; cbn [bindE] in Hs;
    handler_step; [|exact Hs].
  destruct (analyze_response r); handler_step; exact Hs.
Qed.

(** C8. Whatever the request and the network do, the route answers: with a
    200, or with an error status and a JSON object holding an [error] string;
    the bodies of the 400 and 401 answers hold nothing but [error] (no
    [details], no [raw]); and whatever the [try] block throws is answered by
    the catch block with 500, [error: "Server error"] and the thrown value's
    string in [details]. *)
Theorem every_failure_is_structured (cfg : Config) (req : Request)
  (net : FetchRequest -> Exc UpstreamResponse) :
  In (status (fst (run net (post_analyze cfg req)))) [200; 400; 401; 500; 502]
  /\ (status (fst (run net (post_analyze cfg req))) = 200
      \/ exists msg rest,
           body (fst (run net (post_analyze cfg req)))
           = JObj ((js "error", JStr msg) :: rest))
  /\ (status (fst (run net (post_analyze cfg req))) = 400
      \/ status (fst (run net (post_analyze cfg req))) = 401 ->
      exists msg,
        body (fst (run net (post_analyze cfg req)))
        = JObj [(js "error", JStr msg)])
  /\ (forall e sent,
        run net (analyze_try cfg req) = (Throw e, sent) ->
        run net (analyze cfg req)
        = (res_status_json 500
             (JObj [(js "error", JStr (js "Server error"));
                    (js "details", JStr (String_of_error e))]),
           sent)).
Proof.
  pose proof (route_outcome cfg req net) as H.
  set (resp := fst (run net (post_analyze cfg req))) in *.
  repeat split.
  - destruct H as [H|(H & _)]; [rewrite H; simpl; auto|].
    simpl in *. tauto.
  - destruct H as [H|(_ & H & _)]; [left; exact H|right; exact H].
  - intros H4. destruct H as [H|(_ & _ & H)]; [|exact (H H4)].
    rewrite H in H4. destruct H4; discriminate.
  - intros e sent He. unfold analyze. rewrite run_try_catch, He. reflexivity.
Qed.

(** *** The extraction, against the description of the upstream response *)

Lemma view_all_app {A : Type} (f : JsVal -> option A) (xs ys : list JsVal)
  (l m : list A) :
  view_all f xs = Some l -> view_all f ys = Some m ->
  view_all f (xs ++ ys) = Some (l ++ m).
Proof.
  revert l. induction xs as [|x xs IH]; intros l Hx Hy; simpl in *.
  - injection Hx as <-. exact Hy.
  - destruct (f x) as [a|]; [|discriminate].
    destruct (view_all f xs) as [l'|]; [|discriminate].
    injection Hx as <-. rewrite (IH l' eq_refl Hy). reflexivity.
Qed.

Lemma view_block_inv (v : JsVal) (b : Block) :
  view_block v = Some b ->
  exists ps, v = JObj ps
    /\ lookup (js "type") ps = JStr (block_type b)
    /\ view_optional_string (lookup (js "text") ps) = Some (block_text b).
Proof.
  destruct v as [| | | | |xs|ps]; simpl; try discriminate.
  destruct (lookup (js "type") ps) as [| | | |t| |] eqn:Et; try discriminate.
  destruct (view_optional_string (lookup (js "text") ps)) as [tx|] eqn:Ex;
    [|discriminate].
  intros H. injection H as <-. exists ps. simpl. auto.
Qed.

Lemma content_of_view (o : JsVal) (i : OutputItem) :
  view_item o = Some i ->
  exists bl, content_of o = Ok (JArr bl)
    /\ view_all view_block bl = Some (blocks_of i).
Proof.
  destruct o as [| | | | |xs|ps]; simpl; try discriminate.
  unfold content_of. cbn [get bindE].
  destruct (lookup (js "content") ps) as [| | | | |bs|]; try discriminate.
  - intros H. injection H as <-. exists []. split; reflexivity.
  - intros H. injection H as <-. exists []. split; reflexivity.
  - destruct (view_all view_block bs) as [l|] eqn:E; [|discriminate].
    intros H. injection H as <-. exists bs. split; [reflexivity|exact E].
Qed.

Lemma flatMap_view (items : list JsVal) (its : list OutputItem) :
  view_all view_item items = Some its ->
  exists bl, flatMap content_of items = Ok bl
    /\ view_all view_block bl = Some (flat_map blocks_of its).
Proof.
  revert its. induction items as [|o items IH]; intros its H; simpl in H.
  - injection H as <-. exists []. split; reflexivity.
  - destruct (view_item o) as [i|] eqn:Ei; [|discriminate].
    destruct (view_all view_item items) as [its'|]; [|discriminate].
    injection H as <-.
    destruct (content_of_view o i Ei) as (bl & Hc & Hb).
    destruct (IH its' eq_refl) as (bl' & Hf & Hb').
    exists (bl ++ bl'). cbn [flatMap flat_map]. rewrite Hc, Hf. cbn [bindE].
    split; [reflexivity|]. now apply view_all_app.
Qed.

Lemma filter_view (bl : list JsVal) (bs : list Block) :
  view_all view_block bl = Some bs ->
  exists kept, filter_js is_text_block bl = Ok kept
    /\ view_all view_block kept = Some (filter textual bs).
Proof.
  revert bs. induction bl as [|c bl IH]; intros bs H; simpl in H.
  - injection H as <-. exists []. split; reflexivity.
  - destruct (view_block c) as [b|] eqn:Eb; [|discriminate].
    destruct (view_all view_block bl) as [bs'|]; [|discriminate].
    injection H as <-.
    destruct (view_block_inv c b Eb) as (ps & -> & Hty & _).
    destruct (IH bs' eq_refl) as (kept & Hf & Hk).
    cbn [filter_js filter]. unfold is_text_block at 1. cbn [get bindE].
    rewrite Hty, Hf. cbn [bindE strict_eq_str]. fold (textual b).
    destruct (textual b).
    + exists (JObj ps :: kept). split; [reflexivity|].
      cbn [view_all]. rewrite Eb, Hk. reflexivity.
    + exists kept. split; [reflexivity|exact Hk].
Qed.

Lemma map_view (bl : list JsVal) (bs : list Block) :
  view_all view_block bl = Some bs ->
  map_js text_of_block bl = Ok (map (fun b => JStr (text_of b)) bs).
Proof.
  revert bs. induction bl as [|c bl IH]; intros bs H; simpl in H.
  - injection H as <-. reflexivity.
  - destruct (view_block c) as [b|] eqn:Eb; [|discriminate].
    destruct (view_all view_block bl) as [bs'|]; [|discriminate].
    injection H as <-.
    destruct (view_block_inv c b Eb) as (ps & -> & _ & Htx).
    cbn [map_js map]. rewrite (IH bs' eq_refl).
    unfold text_of_block, text_of. cbn [get bindE].
    destruct (lookup (js "text") ps) as [| | | |tx| |]; simpl in Htx;
      try discriminate; injection Htx as <-; try reflexivity.
    rewrite or_else_str. reflexivity.
Qed.

Lemma join_strings (ss : list jsstring) :
  join [10%N] (map (fun s => JStr s) ss) = Ok (join_lines ss).
Proof.
  unfold join. induction ss as [|s ss IH]; [reflexivity|].
  cbn [map join_by join_lines to_string bindE] in *.
  destruct ss as [|s' ss]; [reflexivity|].
  cbn [map] in *. rewrite IH. reflexivity.
Qed.

Lemma scan_output_view (items : list JsVal) (its : list OutputItem) :
  view_all view_item items = Some its ->
  scan_output items = Ok (JStr (joined_text its)).
Proof.
  intros Ev. unfold scan_output, joined_text.
  destruct (flatMap_view items its Ev) as (bl & -> & Hb). cbn [bindE].
  destruct (filter_view bl _ Hb) as (kept & -> & Hk). cbn [bindE].
  rewrite (map_view kept _ Hk). cbn [bindE].
  rewrite <- (map_map text_of (fun s => JStr s)), join_strings. reflexivity.
Qed.

(** The fallback of [||], on a response of the described shape. *)
Lemma fallback_view (ps : list (jsstring * JsVal)) (u : UpstreamData) :
  view_data (JObj ps) = Some u ->
  match lookup (js "output") ps with
  | JArr items => scan_output items
  | _ => Ok (JStr [])
  end
  = Ok (JStr match output_list u with
             | Some its => joined_text its
             | None => []
             end).
Proof.
  cbn [view_data].
  destruct (view_optional_string (lookup (js "output_text") ps)) as [dt|];
    [|discriminate].
  destruct (lookup (js "output") ps) as [| | | | |items|]; try discriminate.
  - intros H. injection H as <-. reflexivity.
  - intros H. injection H as <-. reflexivity.
  - destruct (view_all view_item items) as [its|] eqn:Ev; [|discriminate].
    intros H. injection H as <-. cbn [output_list].
    now apply scan_output_view.
Qed.

Lemma direct_text_view (ps : list (jsstring * JsVal)) (u : UpstreamData) :
  view_data (JObj ps) = Some u ->
  view_optional_string (lookup (js "output_text") ps) = Some (direct_text u).
Proof.
  cbn [view_data].
  destruct (view_optional_string (lookup (js "output_text") ps)) as [dt|];
    [|discriminate].
  destruct (lookup (js "output") ps) as [| | | | |items|]; try discriminate;
    try (intros H; injection H as <-; reflexivity).
  destruct (view_all view_item items); [|discriminate].
  intros H. injection H as <-. reflexivity.
Qed.

(** C1, as the code has it. For an upstream response of the described shape,
    the raw text is the direct output text when the response provides a
    non-empty one; otherwise the texts of the textual content blocks of all
    output items, in order, joined with newlines; and empty when there is
    neither a non-empty direct text nor an output list. *)
Theorem extract_raw_nonempty_first (data : JsVal) (u : UpstreamData) :
  view_data data = Some u ->
  extract_raw data = Ok (JStr (raw_text_nonempty_first u)).
Proof.
  destruct data as [| | | | |xs|ps]; try discriminate. intros Hv.
  pose proof (direct_text_view ps u Hv) as Hd.
  pose proof (fallback_view ps u Hv) as Hf.
  unfold extract_raw, raw_text_nonempty_first. cbn [get bindE].
  destruct (lookup (js "output_text") ps) as [| | | |[|c dt]| |];
    try discriminate; injection Hd as <-; cbn [truthy str_eqb negb];
    solve [exact Hf | reflexivity].
Qed.


(** C5. A request whose [X-APP-KEY] header is absent or differs from the
    configured secret, or that arrives while no secret is configured, is
    answered 401 with body [{ error: "Unauthorized" }] whatever its body
    holds; the handler is not entered and nothing is sent upstream. *)
Theorem unauthorized_is_401 (cfg : Config) (req : Request)
  (net : FetchRequest -> Exc UpstreamResponse) :
  x_app_key req = None \/ x_app_key req <> APP_KEY cfg
    \/ APP_KEY cfg = None \/ APP_KEY cfg = Some [] ->
  post_analyze cfg req = Done (res_status_json 401 (error_body "Unauthorized"))
  /\ run net (post_analyze cfg req)
     = (res_status_json 401 (error_body "Unauthorized"), []).
Proof.
  intros H.
  assert (E : post_analyze cfg req
              = Done (res_status_json 401 (error_body "Unauthorized"))).
  { unfold post_analyze, requireAppKey.
    destruct (APP_KEY cfg) as [k|] eqn:Hk; [|reflexivity].
    destruct k as [|c k]; [reflexivity|].
    destruct (x_app_key req) as [h|] eqn:Hh; [|reflexivity].
    destruct H as [H|[H|[H|H]]]; try discriminate.
    simpl. rewrite str_eqb_neq by congruence. reflexivity. }
  split; [exact E|]. rewrite E. reflexivity.
Qed.

(** C6. With the correct key, a text that is empty after trimming is
    answered 400 with body [{ error: "Le champ 'text' est requis." }], and no
    upstream call is made. *)
Theorem empty_text_is_400 (cfg : Config) (req : Request) (s : jsstring)
  (net : FetchRequest -> Exc UpstreamResponse) :
  authorized cfg req ->
  text_field req = JStr s ->
  trim s = [] ->
  run net (post_analyze cfg req)
  = (res_status_json 400 (error_body "Le champ 'text' est requis."), []).
Proof.
  intros Ha Ht He. now apply empty_text_run with (s := s).
Qed.

(** C10. With the correct key, a truthy [text] that is not a string makes
    [trim] throw a [TypeError]; the handler's catch block answers 500 with
    body [{ error: "Server error", details: String(e) }] (so not the 400 of a
    missing field), and nothing is sent upstream. *)
Theorem non_string_text_is_500 (cfg : Config) (req : Request)
  (net : FetchRequest -> Exc UpstreamResponse) :
  authorized cfg req ->
  truthy (text_field req) = true ->
  (forall s, text_field req <> JStr s) ->
  run net (post_analyze cfg req)
  = (res_status_json 500
       (JObj [(js "error", JStr (js "Server error"));
              (js "details",
               JStr (String_of_error (TypeError (msg_not_a_function (js "trim")))))]),
     []).
Proof.
  intros Ha Ht Hs. unfold post_analyze. rewrite authorized_next by assumption.
  unfold analyze, analyze_try, body_text, or_else. rewrite Ht.
  destruct (text_field req) eqn:E; try discriminate; try reflexivity.
  exfalso. eapply Hs. reflexivity.
Qed.

(** ** Further properties of the route *)

Lemma auth_check (cfg : Config) (req : Request) :
  negb (truthy (of_optional (APP_KEY cfg)))
  || strict_neq_optional (x_app_key req) (APP_KEY cfg) = false
  <-> authorized cfg req.
Proof.
  unfold authorized.
  destruct (APP_KEY cfg) as [[|c k]|]; destruct (x_app_key req) as [h|];
    simpl; split; try discriminate;
    try (intros (k' & Hk & Hne & Hh); try discriminate;
         injection Hk as <-; congruence).
  - intros H. apply negb_false_iff, str_eqb_eq in H. subst h.
    exists (c :: k). repeat split. discriminate.
  - intros (k' & Hk & Hne & Hh). injection Hk as <-. injection Hh as ->.
    now rewrite str_eqb_refl.
Qed.

Lemma authorized_dec (cfg : Config) (req : Request) :
  authorized cfg req \/ ~ authorized cfg req.
Proof.
  destruct (negb (truthy (of_optional (APP_KEY cfg)))
            || strict_neq_optional (x_app_key req) (APP_KEY cfg)) eqn:E.
  - right. intros H. apply auth_check in H. congruence.
  - left. now apply auth_check.
Qed.

Lemma unauthorized_run (cfg : Config) (req : Request)
  (net : FetchRequest -> Exc UpstreamResponse) :
  ~ authorized cfg req ->
  run net (post_analyze cfg req)
  = (res_status_json 401 (error_body "Unauthorized"), []).
Proof.
  intros H. unfold post_analyze, requireAppKey.
  destruct (negb (truthy (of_optional (APP_KEY cfg)))
            || strict_neq_optional (x_app_key req) (APP_KEY cfg)) eqn:E;
    [reflexivity|].
  apply auth_check in E. contradiction.
Qed.

Lemma credential_set_iff (cfg : Config) :
  truthy (of_optional (OPENAI_API_KEY cfg)) = true <-> credential_set cfg.
Proof.
  split; [|apply credential_truthy]. unfold credential_set.
  destruct (OPENAI_API_KEY cfg) as [[|c k]|]; simpl; try discriminate.
  intros _. exists (c :: k). split; [reflexivity|discriminate].
Qed.

Lemma body_throw_run (cfg : Config) (req : Request) (e : JsError)
  (net : FetchRequest -> Exc UpstreamResponse) :
  authorized cfg req -> body_text req = Throw e ->
  run net (post_analyze cfg req) = (server_error e, []).
Proof.
  intros Ha Hb. unfold post_analyze. rewrite authorized_next by assumption.
  unfold analyze, analyze_try. rewrite Hb. reflexivity.
Qed.

Lemma empty_body_text_run (cfg : Config) (req : Request)
  (net : FetchRequest -> Exc UpstreamResponse) :
  authorized cfg req -> body_text req = Ok [] ->
  run net (post_analyze cfg req)
  = (res_status_json 400 (error_body "Le champ 'text' est requis."), []).
Proof.
  intros Ha Hb. unfold post_analyze. rewrite authorized_next by assumption.
  unfold analyze, analyze_try. rewrite Hb. reflexivity.
Qed.

(** The exits of the route before and at the upstream call. *)
Lemma route_cases (cfg : Config) (req : Request)
  (net : FetchRequest -> Exc UpstreamResponse) :
  (~ authorized cfg req
   /\ run net (post_analyze cfg req)
      = (res_status_json 401 (error_body "Unauthorized"), []))
  \/ (authorized cfg req
      /\ exists e, body_text req = Throw e
         /\ run net (post_analyze cfg req) = (server_error e, []))
  \/ (authorized cfg req /\ body_text req = Ok []
      /\ run net (post_analyze cfg req)
         = (res_status_json 400 (error_body "Le champ 'text' est requis."), []))
  \/ (authorized cfg req
      /\ exists t, body_text req = Ok t /\ 12000 < Z.of_nat (length t)
         /\ run net (post_analyze cfg req)
            = (res_status_json 400 (JObj [(js "error", JStr too_long_message)]),
               []))
  \/ (authorized cfg req
      /\ exists t, valid_text req t /\ ~ credential_set cfg
         /\ run net (post_analyze cfg req)
            = (res_status_json 500
                 (error_body "Server misconfigured (missing OPENAI_API_KEY)"),
               []))
  \/ (authorized cfg req
      /\ exists t, valid_text req t /\ credential_set cfg
         /\ run net (post_analyze cfg req)
            = (settle (net (upstream_request cfg t)), [upstream_request cfg t])).
Proof.
  destruct (authorized_dec cfg req) as [Ha|Hn];
    [right|left; split; [assumption|now apply unauthorized_run]].
  destruct (body_text req) as [t|e] eqn:Hb;
    [right|left; split; [assumption|]; exists e; split;
           [reflexivity|now apply body_throw_run]].
  destruct t as [|c t];
    [left; repeat split; [assumption|now apply empty_body_text_run]|right].
  destruct (Z.ltb_spec 12000 (Z.of_nat (length (c :: t)))) as [Hl|Hl].
  { left. split; [assumption|]. exists (c :: t). repeat split; [assumption|].
    now apply (too_long_run cfg req (c :: t)). }
  right.
  assert (Hv : valid_text req (c :: t)) by (repeat split; auto; discriminate).
  pose proof (validated_run cfg req (c :: t) net Ha Hv) as Hr.
  destruct (truthy (of_optional (OPENAI_API_KEY cfg))) eqn:Hc.
  - right. split; [assumption|]. exists (c :: t).
    split; [exact Hv|split; [now apply credential_set_iff|exact Hr]].
  - left. split; [assumption|]. exists (c :: t).
    split; [exact Hv|split; [|exact Hr]].
    intros H. apply credential_set_iff in H. congruence.
Qed.

(** What the handler makes of a settled [fetch]. *)
Lemma settle_cases (settled : Exc UpstreamResponse) :
  (exists e, settled = Throw e /\ settle settled = server_error e)
  \/ exists r, settled = Ok r
     /\ ((r_ok r = false
          /\ ((exists errText, r_text r = Ok errText
                 /\ settle settled
                    = res_status_json 502
                        (JObj [(js "error", JStr (js "OpenAI request failed"));
                               (js "details", JStr errText)]))
              \/ exists e, r_text r = Throw e
                   /\ settle settled = server_error e))
         \/ (r_ok r = true
             /\ ((exists e, r_json r = Throw e /\ settle settled = server_error e)
                 \/ exists data, r_json r = Ok data
                    /\ ((exists e, extract_raw data = Throw e
                           /\ settle settled = server_error e)
                        \/ exists raw, extract_raw data = Ok raw
                           /\ settle settled
                              = match respond_parsed raw with
                                | Ok resp => resp
                                | Throw e => server_error e
                                end)))).
Proof.
  unfold settle. destruct settled as [r|e]; cbn [bindE];
    [right; exists r; split; [reflexivity|]|left; eauto].
  unfold analyze_response. destruct (r_ok r); cbn [negb]; [right|left];
    split; try reflexivity.
  - destruct (r_json r) as [data|e]; cbn [bindE]; [right|left; eauto].
    exists data. split; [reflexivity|].
    destruct (extract_raw data) as [raw|e]; cbn [bindE]; [right|left; eauto].
    exists raw. split; reflexivity.
  - destruct (r_text r) as [errText|e]; cbn [bindE]; [left|right]; eauto.
Qed.

Lemma respond_parsed_cases (raw : JsVal) :
  (exists parsed, JSON_parse raw = Ok parsed
     /\ respond_parsed raw = Ok (res_json parsed))
  \/ (exists e, JSON_parse raw = Throw e
      /\ ((exists resp, respond_parsed raw = Ok resp /\ ErrorForm resp
             /\ status resp = 500)
          \/ (no_slice raw
              /\ respond_parsed raw
                 = Throw (TypeError (msg_not_a_function (js "slice")))))).
Proof.
  unfold respond_parsed.
  destruct (JSON_parse raw) as [parsed|e]; [left; eauto|right].
  exists e. split; [reflexivity|].
  destruct raw as [| |b|n|s|xs|ps]; cbn [optional_slice_2000 bindE];
    try (right; split; [exact I|reflexivity]); left; eexists;
    (split; [reflexivity|split; [|reflexivity]]).
  - apply (OutputInvalidText []). simpl. lia.
  - apply (OutputInvalidText []). simpl. lia.
  - rewrite or_else_str. apply OutputInvalidText. apply firstn_le_length.
  - apply OutputInvalidArray. apply firstn_le_length.
Qed.

Lemma settle_form (settled : Exc UpstreamResponse) :
  status (settle settled) = 200
  \/ (ErrorForm (settle settled)
      /\ (status (settle settled) = 500 \/ status (settle settled) = 502)).
Proof.
  destruct (settle_cases settled)
    as [(e & _ & ->)
       |(r & _ & [(_ & [(errText & _ & ->)|(e & _ & ->)])
                 |(_ & [(e & _ & ->)
                       |(data & _ & [(e & _ & ->)|(raw & _ & ->)])])])];
    try (right; split; [first [apply BadGateway|apply ServerError]
                       |simpl; auto]).
  destruct (respond_parsed_cases raw)
    as [(parsed & _ & ->)
       |(e & _ & [(resp & -> & Hf & Hs)|(_ & ->)])].
  - left. reflexivity.
  - right. split; [exact Hf|left; exact Hs].
  - right. split; [apply ServerError|simpl; auto].
Qed.

(** X1. With the correct key and a valid text, a missing or empty
    [OPENAI_API_KEY] is answered 500 with
    [{ error: "Server misconfigured (missing OPENAI_API_KEY)" }], and nothing
    is sent upstream. *)
Theorem missing_credential_is_500 (cfg : Config) (req : Request) (t : jsstring)
  (net : FetchRequest -> Exc UpstreamResponse) :
  authorized cfg req -> valid_text req t ->
  OPENAI_API_KEY cfg = None \/ OPENAI_API_KEY cfg = Some [] ->
  run net (post_analyze cfg req)
  = (res_status_json 500
       (error_body "Server misconfigured (missing OPENAI_API_KEY)"), []).
Proof.
  intros Ha Hv Hk. rewrite (validated_run cfg req t net Ha Hv).
  destruct Hk as [-> | ->]; reflexivity.
Qed.

(** X2. When [fetch] itself rejects (a network failure), the handler's catch
    block answers 500 with [error: "Server error"] and the rejection's string
    in [details]; the one request is not sent again. *)
Theorem fetch_rejection_is_500 (cfg : Config) (req : Request) (t : jsstring)
  (net : FetchRequest -> Exc UpstreamResponse) (e : JsError) :
  authorized cfg req -> valid_text req t -> credential_set cfg ->
  net (upstream_request cfg t) = Throw e ->
  run net (post_analyze cfg req)
  = (res_status_json 500
       (JObj [(js "error", JStr (js "Server error"));
              (js "details", JStr (String_of_error e))]),
     [upstream_request cfg t]).
Proof.
  intros Ha Hv Hc Hn.
  rewrite (valid_request_run cfg req t net Ha Hv Hc), Hn. reflexivity.
Qed.

(** X3. When the upstream's body cannot be read (the text of a non-success
    response, or the JSON of a success response), the answer is the catch
    block's 500 with the failure's string in [details], and not a 502. *)
Theorem body_read_failure_is_500 (cfg : Config) (req : Request) (t : jsstring)
  (net : FetchRequest -> Exc UpstreamResponse)
  (r : UpstreamResponse) (e : JsError) :
  authorized cfg req -> valid_text req t -> credential_set cfg ->
  net (upstream_request cfg t) = Ok r ->
  (r_ok r = false /\ r_text r = Throw e)
    \/ (r_ok r = true /\ r_json r = Throw e) ->
  run net (post_analyze cfg req)
  = (res_status_json 500
       (JObj [(js "error", JStr (js "Server error"));
              (js "details", JStr (String_of_error e))]),
     [upstream_request cfg t]).
Proof.
  intros Ha Hv Hc Hn Hr.
  rewrite (valid_request_run cfg req t net Ha Hv Hc), Hn.
  unfold settle, analyze_response. cbn [bindE].
  destruct Hr as [(-> & ->)|(-> & ->)]; reflexivity.
Qed.

(** X4. With the correct key, a body whose [text] is missing or falsy (no
    such property, [null], [false], a zero, the empty string, or a body that
    is no object) is answered 400 with [{ error: "Le champ 'text' est
    requis." }], and nothing is sent upstream. *)
Theorem missing_text_is_400 (cfg : Config) (req : Request)
  (net : FetchRequest -> Exc UpstreamResponse) :
  authorized cfg req ->
  truthy (text_field req) = false ->
  run net (post_analyze cfg req)
  = (res_status_json 400 (error_body "Le champ 'text' est requis."), []).
Proof.
  intros Ha Ht. apply empty_body_text_run; [assumption|].
  unfold body_text, or_else. rewrite Ht. reflexivity.
Qed.

Lemma authorized_status (cfg : Config) (req : Request)
  (net : FetchRequest -> Exc UpstreamResponse) :
  authorized cfg req ->
  In (status (fst (run net (post_analyze cfg req)))) [200; 400; 500; 502].
Proof.
  intros Ha.
  destruct (route_cases cfg req net)
    as [(Hn & _)|[(_ & e & _ & ->)|[(_ & _ & ->)|[(_ & t & _ & _ & ->)
       |[(_ & t & _ & _ & ->)|(_ & t & _ & _ & ->)]]]]];
    [contradiction|simpl; auto ..|].
  cbn [fst]. pose proof (settle_status (net (upstream_request cfg t))) as H.
  simpl in *. tauto.
Qed.

(** X5. The route answers 401 exactly when the request is not authorized:
    the configured key is missing or empty, or the header is absent or
    differs from it. *)
Theorem status_401_iff_unauthorized (cfg : Config) (req : Request)
  (net : FetchRequest -> Exc UpstreamResponse) :
  status (fst (run net (post_analyze cfg req))) = 401
  <-> ~ authorized cfg req.
Proof.
  split.
  - intros H Ha. pose proof (authorized_status cfg req net Ha) as Hs.
    rewrite H in Hs. simpl in Hs.
    destruct Hs as [Hs|[Hs|[Hs|[Hs|[]]]]]; discriminate.
  - intros Hn. rewrite (unauthorized_run cfg req net Hn). reflexivity.
Qed.

(** X6. At most one request goes upstream, and only for an authorized
    request with a valid text and a configured credential; it carries the
    trimmed text as [input] and the credential as bearer token. In every
    other case nothing is sent. *)
Theorem upstream_sees_only_valid_text (cfg : Config) (req : Request)
  (net : FetchRequest -> Exc UpstreamResponse) :
  (snd (run net (post_analyze cfg req)) = []
   /\ ~ (authorized cfg req /\ (exists t, valid_text req t)
         /\ credential_set cfg))
  \/ (exists t k,
        snd (run net (post_analyze cfg req)) = [upstream_request cfg t]
        /\ authorized cfg req /\ valid_text req t
        /\ OPENAI_API_KEY cfg = Some k /\ k <> []
        /\ authorization (upstream_request cfg t) = js "Bearer " ++ k
        /\ input (fetch_body (upstream_request cfg t)) = t).
Proof.
  destruct (route_cases cfg req net)
    as [(Hn & ->)|[(_ & e & Hb & ->)|[(_ & Hb & ->)|[(_ & t & Hb & Hl & ->)
       |[(_ & t & _ & Hc & ->)|(Ha & t & Hv & Hc & ->)]]]]].
  - left. split; [reflexivity|]. intros (Ha & _). contradiction.
  - left. split; [reflexivity|]. intros (_ & (t & Hv & _) & _). congruence.
  - left. split; [reflexivity|].
    intros (_ & (t & Hv & Hne & _) & _). rewrite Hb in Hv. congruence.
  - left. split; [reflexivity|].
    intros (_ & (t' & Hv & _ & Hle) & _). rewrite Hb in Hv.
    injection Hv as <-. lia.
  - left. split; [reflexivity|]. intros (_ & _ & Hc'). contradiction.
  - right. destruct Hc as (k & Hk & Hne). exists t, k.
    split; [reflexivity|]. split; [exact Ha|]. split; [exact Hv|].
    split; [exact Hk|]. split; [exact Hne|]. split; [|reflexivity].
    unfold upstream_request, bearer. cbn [authorization].
    rewrite Hk. reflexivity.
Qed.

(** X7. A 200 is sent only on full success: one request went upstream, the
    upstream answered with a success status, its body parsed, a raw value
    was extracted, and the body of the 200 is what [JSON.parse] made of that
    raw value. *)
Theorem ok_only_on_full_success (cfg : Config) (req : Request)
  (net : FetchRequest -> Exc UpstreamResponse) :
  status (fst (run net (post_analyze cfg req))) = 200 ->
  exists t r data raw,
    snd (run net (post_analyze cfg req)) = [upstream_request cfg t]
    /\ valid_text req t
    /\ net (upstream_request cfg t) = Ok r
    /\ r_ok r = true
    /\ r_json r = Ok data
    /\ extract_raw data = Ok raw
    /\ JSON_parse raw = Ok (body (fst (run net (post_analyze cfg req)))).
Proof.
  destruct (route_cases cfg req net)
    as [(_ & ->)|[(_ & e & _ & ->)|[(_ & _ & ->)|[(_ & t & _ & _ & ->)
       |[(_ & t & _ & _ & ->)|(Ha & t & Hv & Hc & ->)]]]]];
    try (simpl; discriminate).
  cbn [fst snd]. intros H.
  destruct (settle_cases (net (upstream_request cfg t)))
    as [(e & _ & Hs)
       |(r & Hn & [(_ & [(errText & _ & Hs)|(e & _ & Hs)])
                  |(Hok & [(e & _ & Hs)
                          |(data & Hj & [(e & _ & Hs)|(raw & Hx & Hs)])])])];
    rewrite Hs in H |- *; try (simpl in H; discriminate).
  destruct (respond_parsed_cases raw)
    as [(parsed & Hp & Hr)|(e & _ & [(resp & Hr & _ & H5)|(_ & Hr)])];
    rewrite Hr in H |- *.
  - exists t, r, data, raw. destruct Hv as (Hb & Hne & Hle).
    repeat split; auto.
  - simpl in H. rewrite H5 in H. discriminate.
  - simpl in H. discriminate.
Qed.

(** X8. A 502 is sent only when the upstream answered the one request with a
    non-success status and its body could be read as text; that text is the
    [details] of the 502. *)
Theorem bad_gateway_only_on_upstream_status (cfg : Config) (req : Request)
  (net : FetchRequest -> Exc UpstreamResponse) :
  status (fst (run net (post_analyze cfg req))) = 502 ->
  exists t r errText,
    snd (run net (post_analyze cfg req)) = [upstream_request cfg t]
    /\ net (upstream_request cfg t) = Ok r
    /\ r_ok r = false
    /\ r_text r = Ok errText
    /\ body (fst (run net (post_analyze cfg req)))
       = JObj [(js "error", JStr (js "OpenAI request failed"));
               (js "details", JStr errText)].
Proof.
  destruct (route_cases cfg req net)
    as [(_ & ->)|[(_ & e & _ & ->)|[(_ & _ & ->)|[(_ & t & _ & _ & ->)
       |[(_ & t & _ & _ & ->)|(Ha & t & Hv & Hc & ->)]]]]];
    try (simpl; discriminate).
  cbn [fst snd]. intros H.
  destruct (settle_cases (net (upstream_request cfg t)))
    as [(e & _ & Hs)
       |(r & Hn & [(Hok & [(errText & Ht & Hs)|(e & _ & Hs)])
                  |(_ & [(e & _ & Hs)
                        |(data & _ & [(e & _ & Hs)|(raw & _ & Hs)])])])];
    rewrite Hs in H |- *; try (simpl in H; discriminate).
  - exists t, r, errText. repeat split; auto.
  - destruct (respond_parsed_cases raw)
      as [(parsed & _ & Hr)|(e & _ & [(resp & Hr & _ & H5)|(_ & Hr)])];
      rewrite Hr in H; try (simpl in H; discriminate).
    simpl in H. rewrite H5 in H. discriminate.
Qed.

(** X9. Every answer of the route that is not a 200 has one of eight forms:
    unauthorized (401), text required or text too long (400), misconfigured
    (500), bad gateway with the upstream's text (502), invalid output with a
    [raw] that is a string or an array of at most 2000 elements (500), or
    server error with the thrown value's string (500). *)
Theorem error_taxonomy (cfg : Config) (req : Request)
  (net : FetchRequest -> Exc UpstreamResponse) :
  status (fst (run net (post_analyze cfg req))) = 200
  \/ ErrorForm (fst (run net (post_analyze cfg req))).
Proof.
  destruct (route_cases cfg req net)
    as [(_ & ->)|[(_ & e & _ & ->)|[(_ & _ & ->)|[(_ & t & _ & _ & ->)
       |[(_ & t & _ & _ & ->)|(Ha & t & Hv & Hc & ->)]]]]]; cbn [fst].
  - right. apply Unauthorized.
  - right. apply ServerError.
  - right. apply TextRequired.
  - right. apply TextTooLong.
  - right. apply Misconfigured.
  - destruct (settle_form (net (upstream_request cfg t))) as [H|(H & _)]; auto.
Qed.

Lemma sent_only_when_configured (cfg : Config) (req : Request)
  (net : FetchRequest -> Exc UpstreamResponse) :
  snd (run net (post_analyze cfg req)) = []
  \/ (authorized cfg req /\ credential_set cfg).
Proof.
  destruct (route_cases cfg req net)
    as [(_ & ->)|[(_ & e & _ & ->)|[(_ & _ & ->)|[(_ & t & _ & _ & ->)
       |[(_ & t & _ & _ & ->)|(Ha & t & Hv & Hc & ->)]]]]]; auto.
Qed.

Lemma trim_start_fixed (y : jsstring) :
  (forall c r, y = c :: r -> is_white_space c = false) -> trim_start y = y.
Proof.
  destruct y as [|c r]; [reflexivity|]. intros H. cbn [trim_start].
  now rewrite (H c r eq_refl).
Qed.

Lemma trim_end_fixed (r : jsstring) (c : N) :
  is_white_space c = false -> trim_end (r ++ [c]) = r ++ [c].
Proof.
  intros Hc. induction r as [|d r IH]; cbn [app trim_end].
  - now rewrite Hc.
  - rewrite IH. destruct (r ++ [c]) eqn:E; [|reflexivity].
    destruct r; discriminate.
Qed.

Lemma trim_idempotent (s : jsstring) : trim (trim s) = trim s.
Proof.
  assert (Hs : trim_start (trim s) = trim s).
  { apply trim_start_fixed. intros c r E. unfold trim in E.
    destruct (trim_end_split (trim_start s)) as (x & Hx & _).
    rewrite E in Hx. now apply (trim_start_head s c (r ++ x)). }
  unfold trim at 1. rewrite Hs.
  destruct (trim s) as [|c r] eqn:E; [reflexivity|].
  destruct (exists_last (l := c :: r)) as (y & d & Hy); [discriminate|].
  rewrite Hy. apply trim_end_fixed.
  apply (trim_end_last (trim_start s) y d). unfold trim in E. congruence.
Qed.

(** X10. The text the handler validates and forwards is the [text] field
    (or the empty string) with white space stripped from both ends and
    nothing else removed: what is cut on either side is white space only,
    the result neither starts nor ends with white space, and trimming it
    again changes nothing. *)
Theorem body_text_is_stripped (req : Request) (t : jsstring) :
  body_text req = Ok t ->
  (exists s l r,
     or_else (text_field req) (JStr []) = JStr s
     /\ s = l ++ t ++ r
     /\ forallb is_white_space l = true
     /\ forallb is_white_space r = true)
  /\ (forall c r, t = c :: r -> is_white_space c = false)
  /\ (forall r c, t = r ++ [c] -> is_white_space c = false)
  /\ trim t = t.
Proof.
  unfold body_text.
  destruct (or_else (text_field req) (JStr [])) as [| | | |s| |];
    try discriminate.
  cbn [call_trim]. intros H. injection H as <-.
  split; [|split; [|split]].
  - destruct (trim_split s) as (l & r & E & Hl & Hr). exists s, l, r. auto.
  - intros c r E. unfold trim in E.
    destruct (trim_end_split (trim_start s)) as (x & Hx & _).
    rewrite E in Hx. now apply (trim_start_head s c (r ++ x)).
  - intros r c E. now apply (trim_end_last (trim_start s) r c).
  - apply trim_idempotent.
Qed.

(** X11. When the extracted raw value is an object, a number or a boolean
    (a direct output text that is no string) and [JSON.parse] rejects it, the
    inner catch block itself throws, since such a value has no [slice]; the
    answer is the outer catch block's 500 "Server error", not the
    invalid-output answer. *)
Theorem raw_without_slice_is_server_error (cfg : Config) (req : Request)
  (t : jsstring) (net : FetchRequest -> Exc UpstreamResponse)
  (r : UpstreamResponse) (data raw : JsVal) (e : JsError) :
  authorized cfg req -> valid_text req t -> credential_set cfg ->
  net (upstream_request cfg t) = Ok r ->
  r_ok r = true ->
  r_json r = Ok data ->
  extract_raw data = Ok raw ->
  no_slice raw ->
  JSON_parse raw = Throw e ->
  run net (post_analyze cfg req)
  = (res_status_json 500
       (JObj [(js "error", JStr (js "Server error"));
              (js "details",
               JStr (String_of_error
                       (TypeError (msg_not_a_function (js "slice")))))]),
     [upstream_request cfg t]).
Proof.
  intros Ha Hv Hc Hn Hok Hj Hx Hs Hp.
  rewrite (valid_request_run cfg req t net Ha Hv Hc), Hn.
  unfold settle, analyze_response. cbn [bindE]. rewrite Hok, Hj.
  cbn [negb bindE]. rewrite Hx. cbn [bindE]. unfold respond_parsed.
  rewrite Hp. destruct raw; try contradiction; reflexivity.
Qed.

(** X12. When the extracted raw value is an array (a direct output text that
    is an array) and [JSON.parse] rejects it, the invalid-output answer
    carries in [raw] the array of its first 2000 elements, not a string. *)
Theorem array_raw_is_cut_as_array (cfg : Config) (req : Request)
  (t : jsstring) (net : FetchRequest -> Exc UpstreamResponse)
  (r : UpstreamResponse) (data : JsVal) (xs : list JsVal) (e : JsError) :
  authorized cfg req -> valid_text req t -> credential_set cfg ->
  net (upstream_request cfg t) = Ok r ->
  r_ok r = true ->
  r_json r = Ok data ->
  extract_raw data = Ok (JArr xs) ->
  JSON_parse (JArr xs) = Throw e ->
  run net (post_analyze cfg req)
  = (res_status_json 500
       (JObj [(js "error",
               JStr (js "AI did not return valid JSON. Adjust prompt."));
              (js "raw", JArr (firstn 2000 xs))]),
     [upstream_request cfg t]).
Proof.
  intros Ha Hv Hc Hn Hok Hj Hx Hp.
  rewrite (valid_request_run cfg req t net Ha Hv Hc), Hn.
  unfold settle, analyze_response. cbn [bindE]. rewrite Hok, Hj.
  cbn [negb bindE]. rewrite Hx. cbn [bindE]. unfold respond_parsed.
  rewrite Hp. reflexivity.
Qed.

Lemma scan_output_string (items : list JsVal) (v : JsVal) :
  scan_output items = Ok v -> exists s, v = JStr s.
Proof.
  unfold scan_output.
  destruct (flatMap content_of items) as [blocks|]; [|discriminate].
  cbn [bindE].
  destruct (filter_js is_text_block blocks) as [kept|]; [|discriminate].
  cbn [bindE].
  destruct (map_js text_of_block kept) as [texts|]; [|discriminate].
  cbn [bindE]. destruct (join [10%N] texts) as [s|]; [|discriminate].
  cbn [bindE]. intros H. injection H as <-. eauto.
Qed.

(** X13. Whatever the shape of the upstream's JSON, an extraction that
    returns gives a string, except when the response is an object whose
    [output_text] is truthy: then that value is returned as it is. *)
Theorem extract_raw_string_unless_direct (data raw : JsVal) :
  extract_raw data = Ok raw ->
  (exists s, raw = JStr s)
  \/ (exists ps, data = JObj ps
        /\ raw = lookup (js "output_text") ps /\ truthy raw = true).
Proof.
  unfold extract_raw.
  destruct data as [| |b|n|s|xs|ps]; cbn [get bindE truthy];
    try discriminate;
    try (intros H; injection H as <-; left; eauto).
  destruct (truthy (lookup (js "output_text") ps)) eqn:Et.
  - intros H. injection H as <-. right. exists ps. auto.
  - destruct (lookup (js "output") ps) as [| | | | |items|];
      try (intros H; injection H as <-; left; eauto).
    intros H. left. now apply scan_output_string with (items := items).
Qed.

Lemma content_of_throws (o : JsVal) (e : JsError) :
  content_of o = Throw e -> err_name e = js "TypeError".
Proof.
  unfold content_of. destruct o; cbn [get bindE]; try discriminate;
    intros H; injection H as <-; reflexivity.
Qed.

Lemma flatMap_null (items : list JsVal) :
  In JNull items ->
  exists e, flatMap content_of items = Throw e /\ err_name e = js "TypeError".
Proof.
  induction items as [|o items IH]; intros Hin; [contradiction|].
  cbn [flatMap]. destruct (content_of o) as [y|e] eqn:Eo; cbn [bindE].
  - destruct Hin as [->|Hin]; [discriminate|].
    destruct (IH Hin) as (e & -> & He). cbn [bindE]. eauto.
  - exists e. split; [reflexivity|]. now apply content_of_throws with (o := o).
Qed.

(** X14. A [null] among the output items makes the extraction throw a
    [TypeError] (reading [content] of [null]) when there is no truthy direct
    output text, whatever the other items hold. *)
Theorem null_output_item_throws (ps : list (jsstring * JsVal))
  (items : list JsVal) :
  truthy (lookup (js "output_text") ps) = false ->
  lookup (js "output") ps = JArr items ->
  In JNull items ->
  exists e, extract_raw (JObj ps) = Throw e /\ err_name e = js "TypeError".
Proof.
  intros Ht Ho Hin. unfold extract_raw. cbn [get bindE]. rewrite Ht, Ho.
  unfold scan_output. destruct (flatMap_null items Hin) as (e & -> & He).
  cbn [bindE]. eauto.
Qed.

Lemma startup_messages_differ :
  missing_openai_key_message <> missing_app_key_message.
Proof. intros H. vm_compute in H. discriminate. Qed.

(** X15. The startup check logs the missing [CLARIFIA_APP_KEY] exactly when
    the route can authorize no one: with that configuration every request,
    whatever its header and body, is answered 401 and nothing goes
    upstream. *)
Theorem app_key_warning_iff_all_401 (cfg : Config) :
  In missing_app_key_message (startup_errors cfg)
  <-> (forall req net,
         run net (post_analyze cfg req)
         = (res_status_json 401 (error_body "Unauthorized"), [])).
Proof.
  unfold startup_errors. split.
  - intros Hin req net. apply unauthorized_run. intros Ha.
    apply auth_check in Ha. apply orb_false_iff in Ha as [Ha _].
    rewrite Ha in Hin. rewrite app_nil_r in Hin.
    destruct (negb (truthy (of_optional (OPENAI_API_KEY cfg))));
      [|contradiction].
    destruct Hin as [Hin|[]]. now apply startup_messages_differ.
  - intros H. apply in_or_app. right.
    destruct (negb (truthy (of_optional (APP_KEY cfg)))) eqn:Ek;
      [left; reflexivity|exfalso].
    set (req := {| x_app_key := APP_KEY cfg; req_body := JNull |}).
    set (net := fun _ : FetchRequest =>
                  @Throw UpstreamResponse (TypeError [])).
    assert (Ha : authorized cfg req).
    { apply auth_check. rewrite Ek. cbn [orb x_app_key req].
      destruct (APP_KEY cfg) as [k|]; cbn [strict_neq_optional];
        [|reflexivity].
      now rewrite str_eqb_refl. }
    pose proof (authorized_status cfg req net Ha) as Hs.
    rewrite (H req net) in Hs. simpl in Hs.
    destruct Hs as [Hs|[Hs|[Hs|[Hs|[]]]]]; discriminate.
Qed.

(** X16. The startup checks log nothing exactly when the service can reach
    the upstream: some request makes the handler send one. With either
    variable missing or empty, no request ever does. *)
Theorem no_startup_error_iff_upstream_reachable (cfg : Config) :
  startup_errors cfg = []
  <-> exists req net, snd (run net (post_analyze cfg req)) <> [].
Proof.
  unfold startup_errors. split.
  - intros H. apply app_eq_nil in H as [Ho Hk].
    destruct (negb (truthy (of_optional (OPENAI_API_KEY cfg)))) eqn:Eo;
      [discriminate|].
    destruct (negb (truthy (of_optional (APP_KEY cfg)))) eqn:Ek;
      [discriminate|].
    set (req := {| x_app_key := APP_KEY cfg;
                   req_body := JObj [(js "text", JStr [97%N])] |}).
    exists req, (fun _ => Throw (TypeError [])).
    assert (Ha : authorized cfg req).
    { apply auth_check. rewrite Ek. cbn [orb x_app_key req].
      destruct (APP_KEY cfg) as [k|]; cbn [strict_neq_optional];
        [|reflexivity].
      now rewrite str_eqb_refl. }
    assert (Hv : valid_text req [97%N]).
    { split; [vm_compute; reflexivity|].
      split; [discriminate|vm_compute; discriminate]. }
    apply negb_false_iff, credential_set_iff in Eo.
    rewrite (valid_request_run cfg req [97%N] _ Ha Hv Eo). discriminate.
  - intros (req & net & Hsent).
    destruct (sent_only_when_configured cfg req net)
      as [Hnil|(Ha & Hc)]; [contradiction|].
    apply auth_check in Ha. apply orb_false_iff in Ha as [Ha _].
    apply credential_set_iff in Hc. rewrite Ha, Hc. reflexivity.
Qed.

(** X17. The route answers 400 exactly when the request is authorized and
    its trimmed text is empty or longer than 12,000 code units, whatever the
    credential and the network are. *)
Theorem status_400_iff_invalid_text (cfg : Config) (req : Request)
  (net : FetchRequest -> Exc UpstreamResponse) :
  status (fst (run net (post_analyze cfg req))) = 400
  <-> (authorized cfg req
       /\ exists t, body_text req = Ok t
                    /\ (t = [] \/ 12000 < Z.of_nat (length t))).
Proof.
  split.
  - destruct (route_cases cfg req net)
      as [(_ & ->)|[(_ & e & _ & ->)|[(Ha & Hb & ->)|[(Ha & t & Hb & Hl & ->)
         |[(_ & t & _ & _ & ->)|(Ha & t & Hv & Hc & ->)]]]]];
      try (simpl; discriminate).
    + intros _. split; [assumption|]. exists []. auto.
    + intros _. split; [assumption|]. exists t. auto.
    + cbn [fst]. intros H.
      pose proof (settle_status (net (upstream_request cfg t))) as Hs.
      rewrite H in Hs. simpl in Hs.
      destruct Hs as [Hs|[Hs|[Hs|[]]]]; discriminate.
  - intros (Ha & t & Hb & [->|Hl]).
    + now rewrite (empty_body_text_run cfg req net Ha Hb).
    + now rewrite (too_long_run cfg req t net Ha Hb Hl).
Qed.

Lemma flatMap_app (f : JsVal -> Exc JsVal) (xs ys : list JsVal) :
  flatMap f (xs ++ ys)
  = (a <- flatMap f xs ;; b <- flatMap f ys ;; Ok (a ++ b)).
Proof.
  induction xs as [|x xs IH]; cbn [app flatMap bindE].
  - destruct (flatMap f ys); reflexivity.
  - destruct (f x) as [y|e]; cbn [bindE]; [|reflexivity]. rewrite IH.
    destruct (flatMap f xs) as [a|e]; cbn [bindE]; [|reflexivity].
    destruct (flatMap f ys) as [b|e]; cbn [bindE]; [|reflexivity].
    now rewrite app_assoc.
Qed.

(** X18. An output item whose [content] is a single value rather than an
    array (one block object, say) is scanned as if that value stood alone in
    an array: [flatMap] keeps what is not an array as one element. *)
Theorem single_content_is_one_block (pre post : list JsVal) (o c : JsVal) :
  get o (js "content") = Ok c ->
  truthy c = true ->
  (forall l, c <> JArr l) ->
  scan_output (pre ++ o :: post)
  = scan_output (pre ++ JObj [(js "content", JArr [c])] :: post).
Proof.
  intros Hg Ht Hc. unfold scan_output. rewrite !flatMap_app.
  cbn [flatMap]. unfold content_of at 2 5. rewrite Hg.
  cbn [get lookup bindE]. rewrite str_eqb_refl. unfold or_else. rewrite Ht.
  cbn [truthy]. destruct c; try reflexivity. exfalso. now apply (Hc elems).
Qed.

End Route.

(** ** The route on the reference engine *)

#[local] Existing Instance reference_engine.

Lemma sample_authorized (v : JsVal) : authorized sample_config (keyed_request v).
Proof.
  exists (js "app-secret"). repeat split. intros H. vm_compute in H. discriminate.
Qed.

Lemma sample_credential : credential_set sample_config.
Proof.
  exists (js "sk-test"). split; [reflexivity|]. intros H. vm_compute in H.
  discriminate.
Qed.

Lemma hello_valid : valid_text (keyed_request (JStr (js " hello "))) (js "hello").
Proof.
  repeat split; [|vm_compute; discriminate].
  intros H. vm_compute in H. discriminate.
Qed.

(** C1, as stated, fails: for a response with an empty direct text beside an
    output list holding the text [hi], the specification's words give the
    empty string and the code gives [hi]. *)
Lemma empty_direct_text_falls_through :
  view_data empty_direct_text
  = Some {| direct_text := Some [];
            output_list :=
              Some [{| item_content :=
                         Some [{| block_type := js "text";
                                  block_text := Some (js "hi") |}] |}] |}
  /\ raw_text_as_specified
       {| direct_text := Some [];
          output_list :=
            Some [{| item_content :=
                       Some [{| block_type := js "text";
                                block_text := Some (js "hi") |}] |}] |}
     = []
  /\ extract_raw empty_direct_text = Ok (JStr (js "hi"))
  /\ js "hi" <> [].
Proof.
  split; [|split; [|split]]; try (vm_compute; reflexivity).
  vm_compute. discriminate.
Qed.

(** C1 on a response with no direct text and a message of two text blocks
    after a reasoning item. *)
Lemma extract_raw_nonempty_first_witness :
  extract_raw (message_body [js "first"; js "second"])
  = Ok (JStr (js "first" ++ [10%N] ++ js "second")).
Proof.
  eapply eq_trans.
  - apply extract_raw_nonempty_first. vm_compute. reflexivity.
  - vm_compute. reflexivity.
Defined.

(** C2, as stated, fails: a text of 12,001 code units (a letter and 12,000
    spaces) is not answered 400; it is trimmed to one letter, sent upstream,
    and the answer is 200. *)
Lemma padded_text_is_accepted :
  authorized sample_config (keyed_request (JStr padded_text))
  /\ text_field (keyed_request (JStr padded_text)) = JStr padded_text
  /\ Z.of_nat (length padded_text) = 12001
  /\ run (upstream_answering 200 (to_json_text (message_body [example_reply])))
         (post_analyze sample_config (keyed_request (JStr padded_text)))
     = ({| status := 200; body := example_parsed |},
        [upstream_request sample_config (js "a")]).
Proof.
  split; [apply sample_authorized|].
  split; [|split]; vm_compute; reflexivity.
Qed.

(** C2 on 12,001 letters (rejected) and on 12,000 letters (not a 400). *)
Lemma trimmed_length_limit_witness :
  run (upstream_answering 200 (js "{}"))
      (post_analyze sample_config (keyed_request (JStr (letters 12001))))
  = (res_status_json 400 (JObj [(js "error", JStr too_long_message)]), [])
  /\ status (fst (run (upstream_answering 200 (js "{}"))
                      (post_analyze sample_config
                         (keyed_request (JStr (letters 12000))))))
     <> 400.
Proof.
  split.
  - apply (trimmed_length_limit sample_config
             (keyed_request (JStr (letters 12001))) (letters 12001));
      [apply sample_authorized|reflexivity|].
    apply Z.leb_le. vm_compute. reflexivity.
  - apply (trimmed_length_limit sample_config
             (keyed_request (JStr (letters 12000))) (letters 12000));
      [apply sample_authorized|reflexivity|].
    vm_compute. reflexivity.
Defined.

(** C3 on an upstream whose one text block is 2,500 letters: not JSON, and
    cut to 2,000 in [raw]. *)
Lemma invalid_json_is_500_witness :
  run (upstream_answering 200 (to_json_text (message_body [letters 2500])))
      (post_analyze sample_config (keyed_request (JStr (js " hello "))))
  = (res_status_json 500
       (JObj [(js "error",
               JStr (js "AI did not return valid JSON. Adjust prompt."));
              (js "raw", JStr (firstn 2000 (letters 2500)))]),
     [upstream_request sample_config (js "hello")])
  /\ firstn 2000 (letters 2500) = letters 2000.
Proof.
  split; [|vm_compute; reflexivity].
  apply (invalid_json_is_500 sample_config
           (keyed_request (JStr (js " hello "))) (js "hello")
           (upstream_answering 200 (to_json_text (message_body [letters 2500])))
           {| up_status := 200;
              up_text := Ok (to_json_text (message_body [letters 2500]));
              up_json := reference_parse
                           (to_json_text (message_body [letters 2500])) |}
           (message_body [letters 2500]) (letters 2500)
           (SyntaxError (js "Unexpected token")));
    try (vm_compute; reflexivity).
  - apply sample_authorized.
  - apply hello_valid.
  - apply sample_credential.
Defined.

(** C4 on the reply of the specification's example. *)
Lemma valid_json_is_200_witness :
  run (upstream_answering 200 (to_json_text (message_body [example_reply])))
      (post_analyze sample_config (keyed_request (JStr (js " hello "))))
  = ({| status := 200; body := example_parsed |},
     [upstream_request sample_config (js "hello")]).
Proof.
  apply (valid_json_is_200 sample_config
           (keyed_request (JStr (js " hello "))) (js "hello")
           (upstream_answering 200 (to_json_text (message_body [example_reply])))
           {| up_status := 200;
              up_text := Ok (to_json_text (message_body [example_reply]));
              up_json := reference_parse
                           (to_json_text (message_body [example_reply])) |}
           (message_body [example_reply]) example_reply example_parsed);
    try (vm_compute; reflexivity).
  - apply sample_authorized.
  - apply hello_valid.
  - apply sample_credential.
Defined.

(** C5 on a request with no header, and on one with a wrong key and a body
    that is no string. *)
Lemma unauthorized_is_401_witness :
  run (upstream_answering 200 (js "{}"))
      (post_analyze sample_config (request_with None (JStr (js "hello"))))
  = (res_status_json 401 (error_body "Unauthorized"), [])
  /\ run (upstream_answering 200 (js "{}"))
         (post_analyze sample_config
            (request_with (Some (js "wrong")) (JNum {| num_truthy := true;
                                                       num_repr := js "7" |})))
     = (res_status_json 401 (error_body "Unauthorized"), []).
Proof.
  split.
  - apply (unauthorized_is_401 sample_config
             (request_with None (JStr (js "hello")))).
    left. reflexivity.
  - apply (unauthorized_is_401 sample_config
             (request_with (Some (js "wrong"))
                (JNum {| num_truthy := true; num_repr := js "7" |}))).
    right. left. intros H. vm_compute in H. discriminate.
Defined.

(** C6 on a text of three spaces. *)
Lemma empty_text_is_400_witness :
  run (upstream_answering 200 (js "{}"))
      (post_analyze sample_config (keyed_request (JStr (js "   "))))
  = (res_status_json 400 (error_body "Le champ 'text' est requis."), []).
Proof.
  apply (empty_text_is_400 sample_config (keyed_request (JStr (js "   ")))
           (js "   "));
    [apply sample_authorized|reflexivity|vm_compute; reflexivity].
Defined.

(** C7 on an upstream that answers 429. *)
Lemma upstream_failure_is_502_witness :
  run (upstream_answering 429 (js "rate limited"))
      (post_analyze sample_config (keyed_request (JStr (js " hello "))))
  = (res_status_json 502
       (JObj [(js "error", JStr (js "OpenAI request failed"));
              (js "details", JStr (js "rate limited"))]),
     [upstream_request sample_config (js "hello")]).
Proof.
  apply (upstream_failure_is_502 sample_config
           (keyed_request (JStr (js " hello "))) (js "hello")
           (upstream_answering 429 (js "rate limited"))
           {| up_status := 429; up_text := Ok (js "rate limited");
              up_json := reference_parse (js "rate limited") |}
           (js "rate limited"));
    try reflexivity.
  - apply sample_authorized.
  - apply hello_valid.
  - apply sample_credential.
Defined.

(** C9 on a letter followed by 12,000 spaces. *)
Lemma trimmed_text_is_checked_and_sent_witness :
  12000 < Z.of_nat (length padded_text)
  /\ trim padded_text = js "a"
  /\ snd (run (upstream_answering 200 (js "{}"))
              (post_analyze sample_config (keyed_request (JStr padded_text))))
     = [upstream_request sample_config (trim padded_text)]
  /\ input (fetch_body (upstream_request sample_config (trim padded_text)))
     = trim padded_text.
Proof.
  split; [vm_compute; reflexivity|]. split; [vm_compute; reflexivity|].
  apply (trimmed_text_is_checked_and_sent sample_config
           (keyed_request (JStr padded_text)) padded_text
           (upstream_answering 200 (js "{}"))).
  - apply sample_authorized.
  - reflexivity.
  - apply Z.leb_le. vm_compute. reflexivity.
  - vm_compute. discriminate.
  - apply sample_credential.
Defined.

(** C10 on the number 42 as text. *)
Lemma non_string_text_is_500_witness :
  run (upstream_answering 200 (js "{}"))
      (post_analyze sample_config
         (keyed_request (JNum {| num_truthy := true; num_repr := js "42" |})))
  = (res_status_json 500
       (JObj [(js "error", JStr (js "Server error"));
              (js "details",
               JStr (String_of_error
                       (TypeError (msg_not_a_function (js "trim")))))]),
     []).
Proof.
  apply (non_string_text_is_500 sample_config
           (keyed_request (JNum {| num_truthy := true; num_repr := js "42" |}))).
  - apply sample_authorized.
  - reflexivity.
  - intros s H. discriminate H.
Defined.

(** X1 on a valid text with no upstream credential configured. *)
Lemma missing_credential_is_500_witness :
  run failing_network
      (post_analyze config_without_credential
         (keyed_request (JStr (js " hello "))))
  = (res_status_json 500
       (error_body "Server misconfigured (missing OPENAI_API_KEY)"), []).
Proof.
  apply (missing_credential_is_500 config_without_credential
           (keyed_request (JStr (js " hello "))) (js "hello")).
  - exists (js "app-secret"). repeat split. intros H. vm_compute in H.
    discriminate.
  - apply hello_valid.
  - left. reflexivity.
Defined.

(** X2 on a network that rejects every [fetch]. *)
Lemma fetch_rejection_is_500_witness :
  run failing_network
      (post_analyze sample_config (keyed_request (JStr (js " hello "))))
  = (res_status_json 500
       (JObj [(js "error", JStr (js "Server error"));
              (js "details",
               JStr (String_of_error (TypeError (js "fetch failed"))))]),
     [upstream_request sample_config (js "hello")]).
Proof.
  apply (fetch_rejection_is_500 sample_config
           (keyed_request (JStr (js " hello "))) (js "hello") failing_network).
  - apply sample_authorized.
  - apply hello_valid.
  - apply sample_credential.
  - reflexivity.
Defined.

(** X3 on an upstream that answers 200 with a body that is no JSON. *)
Lemma body_read_failure_is_500_witness :
  run (upstream_answering 200 (js "<html>"))
      (post_analyze sample_config (keyed_request (JStr (js " hello "))))
  = (res_status_json 500
       (JObj [(js "error", JStr (js "Server error"));
              (js "details",
               JStr (String_of_error (SyntaxError (js "Unexpected token"))))]),
     [upstream_request sample_config (js "hello")]).
Proof.
  apply (body_read_failure_is_500 sample_config
           (keyed_request (JStr (js " hello "))) (js "hello")
           (upstream_answering 200 (js "<html>"))
           {| up_status := 200; up_text := Ok (js "<html>");
              up_json := reference_parse (js "<html>") |}).
  - apply sample_authorized.
  - apply hello_valid.
  - apply sample_credential.
  - reflexivity.
  - right. split; vm_compute; reflexivity.
Defined.

(** X4 on a body [{ text: null }]. *)
Lemma missing_text_is_400_witness :
  run failing_network (post_analyze sample_config (keyed_request JNull))
  = (res_status_json 400 (error_body "Le champ 'text' est requis."), []).
Proof.
  apply (missing_text_is_400 sample_config (keyed_request JNull)).
  - apply sample_authorized.
  - reflexivity.
Defined.

(** X7 on the reply of the specification's example. *)
Lemma ok_only_on_full_success_witness :
  exists t r data raw,
    snd (run (upstream_answering 200
                (to_json_text (message_body [example_reply])))
             (post_analyze sample_config
                (keyed_request (JStr (js " hello ")))))
    = [upstream_request sample_config t]
    /\ valid_text (keyed_request (JStr (js " hello "))) t
    /\ upstream_answering 200 (to_json_text (message_body [example_reply]))
         (upstream_request sample_config t) = Ok r
    /\ r_ok r = true
    /\ r_json r = Ok data
    /\ extract_raw data = Ok raw
    /\ JSON_parse raw
       = Ok (body (fst (run (upstream_answering 200
                               (to_json_text (message_body [example_reply])))
                            (post_analyze sample_config
                               (keyed_request (JStr (js " hello "))))))).
Proof.
  apply (ok_only_on_full_success sample_config
           (keyed_request (JStr (js " hello ")))
           (upstream_answering 200
              (to_json_text (message_body [example_reply])))).
  vm_compute. reflexivity.
Defined.

(** X8 on an upstream that answers 429. *)
Lemma bad_gateway_only_on_upstream_status_witness :
  exists t r errText,
    snd (run (upstream_answering 429 (js "rate limited"))
             (post_analyze sample_config
                (keyed_request (JStr (js " hello ")))))
    = [upstream_request sample_config t]
    /\ upstream_answering 429 (js "rate limited")
         (upstream_request sample_config t) = Ok r
    /\ r_ok r = false
    /\ r_text r = Ok errText
    /\ body (fst (run (upstream_answering 429 (js "rate limited"))
                      (post_analyze sample_config
                         (keyed_request (JStr (js " hello "))))))
       = JObj [(js "error", JStr (js "OpenAI request failed"));
               (js "details", JStr errText)].
Proof.
  apply (bad_gateway_only_on_upstream_status sample_config
           (keyed_request (JStr (js " hello ")))
           (upstream_answering 429 (js "rate limited"))).
  vm_compute. reflexivity.
Defined.

(** X10 on a text with spaces and a line break around one word. *)
Lemma body_text_is_stripped_witness :
  body_text (keyed_request (JStr (js "  hello " ++ [10%N]))) = Ok (js "hello")
  /\ trim (js "hello") = js "hello".
Proof.
  split; [vm_compute; reflexivity|].
  apply (body_text_is_stripped
           (keyed_request (JStr (js "  hello " ++ [10%N]))) (js "hello")).
  vm_compute. reflexivity.
Defined.

(** X11 on a response whose direct output text is the object [{}]. *)
Lemma raw_without_slice_is_server_error_witness :
  run (upstream_answering 200 (to_json_text object_direct_text))
      (post_analyze sample_config (keyed_request (JStr (js " hello "))))
  = (res_status_json 500
       (JObj [(js "error", JStr (js "Server error"));
              (js "details",
               JStr (String_of_error
                       (TypeError (msg_not_a_function (js "slice")))))]),
     [upstream_request sample_config (js "hello")]).
Proof.
  apply (raw_without_slice_is_server_error sample_config
           (keyed_request (JStr (js " hello "))) (js "hello")
           (upstream_answering 200 (to_json_text object_direct_text))
           {| up_status := 200;
              up_text := Ok (to_json_text object_direct_text);
              up_json := reference_parse (to_json_text object_direct_text) |}
           object_direct_text (JObj [])
           (SyntaxError (js "Unexpected token")));
    try (vm_compute; reflexivity).
  - apply sample_authorized.
  - apply hello_valid.
  - apply sample_credential.
Defined.

(** X12 on a response whose direct output text is the array [["a", "b"]]. *)
Lemma array_raw_is_cut_as_array_witness :
  run (upstream_answering 200 (to_json_text array_direct_text))
      (post_analyze sample_config (keyed_request (JStr (js " hello "))))
  = (res_status_json 500
       (JObj [(js "error",
               JStr (js "AI did not return valid JSON. Adjust prompt."));
              (js "raw", JArr (firstn 2000 [JStr (js "a"); JStr (js "b")]))]),
     [upstream_request sample_config (js "hello")]).
Proof.
  apply (array_raw_is_cut_as_array sample_config
           (keyed_request (JStr (js " hello "))) (js "hello")
           (upstream_answering 200 (to_json_text array_direct_text))
           {| up_status := 200;
              up_text := Ok (to_json_text array_direct_text);
              up_json := reference_parse (to_json_text array_direct_text) |}
           array_direct_text [JStr (js "a"); JStr (js "b")]
           (SyntaxError (js "Unexpected token")));
    try (vm_compute; reflexivity).
  - apply sample_authorized.
  - apply hello_valid.
  - apply sample_credential.
Defined.

(** X13 on the response with an array for direct output text. *)
Lemma extract_raw_string_unless_direct_witness :
  (exists s, JArr [JStr (js "a"); JStr (js "b")] = JStr s)
  \/ (exists ps, array_direct_text = JObj ps
        /\ JArr [JStr (js "a"); JStr (js "b")] = lookup (js "output_text") ps
        /\ truthy (JArr [JStr (js "a"); JStr (js "b")]) = true).
Proof.
  apply (extract_raw_string_unless_direct array_direct_text
           (JArr [JStr (js "a"); JStr (js "b")])).
  vm_compute. reflexivity.
Defined.

(** X14 on an output list that holds a message and a [null]. *)
Lemma null_output_item_throws_witness :
  exists e,
    extract_raw (JObj [(js "output",
                        JArr [JObj [(js "type", JStr (js "message"))]; JNull])])
    = Throw e
    /\ err_name e = js "TypeError".
Proof.
  apply (null_output_item_throws
           [(js "output", JArr [JObj [(js "type", JStr (js "message"))]; JNull])]
           [JObj [(js "type", JStr (js "message"))]; JNull]).
  - reflexivity.
  - vm_compute. reflexivity.
  - right. left. reflexivity.
Defined.

(** X18 on an item whose content is one text block. *)
Lemma single_content_is_one_block_witness :
  scan_output [single_block_item] = Ok (JStr (js "solo"))
  /\ scan_output ([] ++ single_block_item :: [])
     = scan_output
         ([] ++ JObj [(js "content",
                       JArr [JObj [(js "type", JStr (js "text"));
                                   (js "text", JStr (js "solo"))]])] :: []).
Proof.
  split; [vm_compute; reflexivity|].
  apply (single_content_is_one_block [] [] single_block_item
           (JObj [(js "type", JStr (js "text")); (js "text", JStr (js "solo"))])).
  - vm_compute. reflexivity.
  - reflexivity.
  - intros l H. discriminate H.
Defined.
